(** * Fashion attribute extraction: the batch handler, the single-image
      analyser and the embedding service

    A shallow embedding of [backend/runpod_deepfashion_batch.py], of the
    [DeepFashionExtractor] class of [backend/modal_deepfashion.py] with its
    web endpoint, and of the two endpoints of
    [backend/modal_clip_service.py].

    Python values that travel through dictionaries (the request event, the
    per-image dictionaries, the response) are values of [pyval]; a Python
    [dict] is a [gmap string pyval], a Python [list] a Rocq [list].
    Exceptions are values of [exn]; a [try] block is a computation in [Exc],
    and code that may call the vision-language model runs in [M], which also
    threads the log of classifier calls.

    Three things are outside the program and are taken as parameters of the
    development: the type of decoded images, the base64 + PIL decoding of a
    payload ([pil_open]), and the processor + model + softmax pipeline
    ([clip_probs]); for the embedding service, the three remote methods of
    [CLIPService].  Floating point numbers are represented by rationals: the
    program only compares scores, copies them, and divides a count by an
    elapsed time, and no statement below depends on rounding. *)

From Stdlib Require Import QArith Ascii.
From stdpp Require Import gmap strings list pretty.

#[local] Set Warnings "-register-all".

(** ** Python values *)

Inductive pyval : Type :=
  | PNone
  | PBool (b : bool)
  | PInt (z : Z)
  | PFloat (q : Q)
  | PStr (s : string)
  | PList (l : list pyval)
  | PDict (d : gmap string pyval).

(** [type(v).__name__] *)
Definition type_name (v : pyval) : string :=
  match v with
  | PNone => "NoneType"
  | PBool _ => "bool"
  | PInt _ => "int"
  | PFloat _ => "float"
  | PStr _ => "str"
  | PList _ => "list"
  | PDict _ => "dict"
  end.

(** [bool(v)]: the values that [if not v] treats as false. *)
Definition truthy (v : pyval) : bool :=
  match v with
  | PNone => false
  | PBool b => b
  | PInt z => negb (z =? 0)%Z
  | PFloat q => negb (Qeq_bool q 0)
  | PStr s => negb (String.eqb s "")
  | PList l => match l with [] => false | _ => true end
  | PDict d => negb (bool_decide (d = ∅))
  end.

(** ** Exceptions *)

Inductive exn : Type :=
  | AttributeError (msg : string)
  | TypeError (msg : string)
  | IndexError (msg : string)
  | KeyError (msg : string)
  | ValueError (msg : string)
  | ZeroDivisionError (msg : string)
  | RuntimeError (msg : string).

(** [str(e)] *)
Definition str_exn (e : exn) : string :=
  match e with
  | AttributeError m | TypeError m | IndexError m | KeyError m
  | ValueError m | ZeroDivisionError m | RuntimeError m => m
  end.

(** Computations that either raise or return. *)
Definition Exc (A : Type) : Type := (exn + A)%type.

Definition raise {A : Type} (e : exn) : Exc A := inl e.

#[global] Instance exc_ret : MRet Exc := λ A x, inr x.
#[global] Instance exc_bind : MBind Exc :=
  λ A B f m, match m with inl e => inl e | inr x => f x end.

(** Computations that may raise and that extend a log of remote calls, each
    call an entry of type [C]. *)
Definition Logged (C A : Type) : Type := list C → Exc A * list C.

#[global] Instance logged_ret {C : Type} : MRet (Logged C) := λ A x lg, (inr x, lg).
#[global] Instance logged_bind {C : Type} : MBind (Logged C) :=
  λ A B f m lg,
    match m lg with
    | (inl e, lg') => (inl e, lg')
    | (inr x, lg') => f x lg'
    end.

Definition logged_lift {C A : Type} (c : Exc A) : Logged C A := λ lg, (c, lg).

(** A [for] loop that threads its local variables [s] through the body. *)
Fixpoint for_each {M : Type → Type} `{!MBind M, !MRet M} {A S : Type}
    (body : S → A → M S) (s : S) (l : list A) : M S :=
  match l with
  | [] => mret s
  | x :: l' => s' ← body s x; for_each body s' l'
  end.

(** [enumerate(l)] *)
Fixpoint enumerate_from {A : Type} (k : nat) (l : list A) : list (nat * A) :=
  match l with
  | [] => []
  | x :: l' => (k, x) :: enumerate_from (S k) l'
  end.

Definition enumerate {A : Type} (l : list A) : list (nat * A) :=
  enumerate_from 0 l.

(** ** Built-in operations *)

(** [l[i]] for a non-negative [i] *)
Definition list_getitem {A : Type} (l : list A) (i : nat) : Exc A :=
  match l !! i with
  | Some x => mret x
  | None => raise (IndexError "list index out of range")
  end.

(** [l[i] = x] for a non-negative [i] *)
Definition list_setitem {A : Type} (l : list A) (i : nat) (x : A) : Exc (list A) :=
  if bool_decide (i < length l) then mret (<[i := x]> l)
  else raise (IndexError "list assignment index out of range").

(** [l[-1]] *)
Definition list_last {A : Type} (l : list A) : Exc A :=
  match last l with
  | Some x => mret x
  | None => raise (IndexError "list index out of range")
  end.

(** [l.insert(i, x)] for a non-negative [i]: past the end it appends. *)
Definition list_insert_at {A : Type} (i : nat) (x : A) (l : list A) : list A :=
  take i l ++ x :: drop i l.

(** [d[k]] on a dictionary *)
Definition dict_getitem (d : gmap string pyval) (k : string) : Exc pyval :=
  match d !! k with
  | Some v => mret v
  | None => raise (KeyError ("'" +:+ k +:+ "'"))
  end.

(** [v.get(k, dflt)]: only dictionaries have the method. *)
Definition py_get (v : pyval) (k : string) (dflt : pyval) : Exc pyval :=
  match v with
  | PDict d => mret (default dflt (d !! k))
  | _ => raise (AttributeError
                  ("'" +:+ type_name v +:+ "' object has no attribute 'get'"))
  end.

(** [len(v)] *)
Definition py_len (v : pyval) : Exc nat :=
  match v with
  | PStr s => mret (String.length s)
  | PList l => mret (length l)
  | PDict d => mret (size d)
  | _ => raise (TypeError
                  ("object of type '" +:+ type_name v +:+ "' has no len()"))
  end.

(** The items a [for] loop over [v] visits: the elements of a list, the
    one-character strings of a string, the keys of a dictionary. *)
Definition py_iter (v : pyval) : Exc (list pyval) :=
  match v with
  | PList l => mret l
  | PStr s => mret ((λ c, PStr (String c EmptyString)) <$> String.list_ascii_of_string s)
  | PDict d => mret ((λ kv, PStr kv.1) <$> map_to_list d)
  | _ => raise (TypeError ("'" +:+ type_name v +:+ "' object is not iterable"))
  end.

(** [v in l] for a list [l] of strings: equality with a string holds only
    for an equal string. *)
Definition py_in (v : pyval) (l : list string) : bool :=
  match v with
  | PStr s => bool_decide (s ∈ l)
  | _ => false
  end.

(** [v == s] for a string [s] *)
Definition py_eq_str (v : pyval) (s : string) : bool :=
  match v with
  | PStr s' => bool_decide (s' = s)
  | _ => false
  end.

(** [n / t] for an [int] count [n] and a [float] [t] *)
Definition py_div (n : nat) (t : Q) : Exc Q :=
  if Qeq_bool t 0 then raise (ZeroDivisionError "float division by zero")
  else mret (inject_Z (Z.of_nat n) / t)%Q.

(** [v[k]] for a string key [k]: a dictionary is looked up, no other value
    of a request can be indexed by a string. *)
Definition py_getitem (v : pyval) (k : string) : Exc pyval :=
  match v with
  | PDict d => dict_getitem d k
  | PStr _ => raise (TypeError "string indices must be integers")
  | PList _ => raise (TypeError "list indices must be integers or slices, not str")
  | _ => raise (TypeError ("'" +:+ type_name v +:+ "' object is not subscriptable"))
  end.

(** [v[i:j]] for [0 <= i <= j]: the slice of a list or of a string stops at
    the end of the sequence; a dictionary has no slices (Python 3.10, the
    version the service pins). *)
Definition py_slice (v : pyval) (i j : nat) : Exc pyval :=
  match v with
  | PList l => mret (PList (take (j - i) (drop i l)))
  | PStr s => mret (PStr (String.substring i (j - i) s))
  | PDict _ => raise (TypeError "unhashable type: 'slice'")
  | _ => raise (TypeError ("'" +:+ type_name v +:+ "' object is not subscriptable"))
  end.

(** [range(0, stop, step)] for a positive [step] *)
Definition range_step (stop step : nat) : list nat :=
  (λ k, k * step) <$> seq 0 ((stop + step - 1) / step).

(** ** Strings *)

(** [c.isspace()] on the ASCII range: tab, line feed, vertical tab, form
    feed, carriage return, the four separators 28..31, and space. *)
Definition is_space (c : ascii) : bool :=
  let n := nat_of_ascii c in
  ((9 <=? n) && (n <=? 13)) || ((28 <=? n) && (n <=? 32)).

Definition flush_word (w : list ascii) : list string :=
  match w with
  | [] => []
  | _ => [String.string_of_list_ascii w]
  end.

Fixpoint split_from (w : list ascii) (s : string) : list string :=
  match s with
  | EmptyString => flush_word w
  | String c s' =>
      if is_space c then flush_word w ++ split_from [] s'
      else split_from (w ++ [c]) s'
  end.

(** [s.split()]: the maximal runs of non-whitespace characters. *)
Definition split (s : string) : list string := split_from [] s.

(** [template.format(label=label)], for templates whose only braces are
    the replacement field [{label}]: the field is replaced by [label], every
    other character is copied.  [skip] counts the characters of a field
    that remain to be dropped. *)
Fixpoint format_from (skip : nat) (template label : string) : string :=
  match template with
  | EmptyString => EmptyString
  | String c t' =>
      match skip with
      | S k => format_from k t' label
      | O =>
          if String.prefix "{label}" template
          then label +:+ format_from 6 t' label
          else String c (format_from 0 t' label)
      end
  end.

Definition format_label (template label : string) : string :=
  format_from 0 template label.

(** The templates [format_label] is a model of [str.format] for: braces
    occur only as the field [{label}]. *)
Fixpoint plain_from (skip : nat) (template : string) : bool :=
  match template with
  | EmptyString => true
  | String c t' =>
      match skip with
      | S k => plain_from k t'
      | O =>
          if String.prefix "{label}" template then plain_from 6 t'
          else negb (Ascii.eqb c "{"%char || Ascii.eqb c "}"%char) && plain_from 0 t'
      end
  end.

Definition plain_template (template : string) : bool := plain_from 0 template.

(** ** Scores *)

(** [row.argmax()]: the index of the first maximal entry; undefined on an
    empty row. *)
Fixpoint argmax_from (best_idx : nat) (best : Q) (i : nat) (row : list Q) : nat :=
  match row with
  | [] => best_idx
  | x :: row' =>
      if Qle_bool x best then argmax_from best_idx best (S i) row'
      else argmax_from i x (S i) row'
  end.

Definition argmax (row : list Q) : Exc nat :=
  match row with
  | [] => raise (RuntimeError "argmax(): expected a non-empty tensor")
  | x :: row' => mret (argmax_from 0 x 1 row')
  end.

(** ** Configuration *)

Definition CATEGORY_LABELS : list string :=
  ["dress"; "top"; "shirt"; "blouse"; "t-shirt"; "sweater"; "hoodie";
   "jacket"; "coat"; "pants"; "jeans"; "shorts"; "skirt";
   "shoes"; "sneakers"; "boots"; "sandals"; "heels";
   "bag"; "backpack"; "hat"; "scarf"; "belt"; "sunglasses"].

Definition SLEEVE_LENGTH_LABELS : list string :=
  ["sleeveless"; "short"; "long"; "three-quarter"].

Definition COLOR_LABELS : list string :=
  ["black"; "white"; "gray"; "red"; "blue"; "green"; "yellow"; "orange";
   "pink"; "purple"; "brown"; "beige"; "navy"; "burgundy"; "cream"].

(** Only [modal_deepfashion.py] has a gender vocabulary. *)
Definition GENDER_LABELS : list string :=
  ["men"; "women"; "boys"; "girls"; "unisex"; "kids"].

Definition PATTERN_LABELS : list string :=
  ["solid"; "striped"; "plaid"; "floral"; "geometric"; "dots"; "animal"].

Definition NECKLINE_LABELS : list string :=
  ["round"; "v-neck"; "collar"; "turtleneck"; "scoop"; "square";
   "off-shoulder"].

Definition LENGTH_LABELS : list string :=
  ["mini"; "knee"; "midi"; "maxi"; "ankle"].

Definition SLEEVE_CATEGORIES : list string :=
  ["dress"; "top"; "shirt"; "blouse"; "t-shirt"; "sweater"; "hoodie";
   "jacket"; "coat"].

Definition NECKLINE_CATEGORIES : list string :=
  ["dress"; "top"; "shirt"; "blouse"; "t-shirt"; "sweater"].

Definition LENGTH_CATEGORIES : list string := ["dress"; "skirt"].

(** ** The two response shapes of the batch handler *)

(** [{"error": msg, "results": []}] *)
Definition error_response (msg : string) : pyval :=
  PDict (<["results" := PList []]> (<["error" := PStr msg]> ∅)).

(** [{'label': 'unknown', 'confidence': 0.0}] *)
Definition unknown_result : gmap string pyval :=
  <["confidence" := PFloat 0]> (<["label" := PStr "unknown"]> ∅).

(** [{'id': image_id, 'success': False, 'error': 'Failed to decode image'}] *)
Definition failed_entry (image_id : pyval) : pyval :=
  PDict (<["error" := PStr "Failed to decode image"]>
        (<["success" := PBool false]>
        (<["id" := image_id]> ∅))).

(** [response[k]] when the response is a dictionary with key [k]. *)
Definition response_field (response : pyval) (k : string) : option pyval :=
  match response with
  | PDict d => d !! k
  | _ => None
  end.

(** Whether an entry of the results carries [success: True]. *)
Definition is_success (entry : pyval) : bool :=
  match response_field entry "success" with
  | Some (PBool true) => true
  | _ => false
  end.

(** The slices [l[i:i+size]] for [i] in [range(0, len(l), size)]. *)
Definition chunks_of {A : Type} (size : nat) (l : list A) : list (list A) :=
  (λ i, take size (drop i l)) <$> range_step (length l) size.

(** ** A small world to run the program in

    Images are numbered; the payload [gif_payload] is a one-pixel GIF in
    base64 and decodes to image 0; no other payload decodes, and the cause
    reported is that of the payload ["abc"], which is not padded base64.  The
    model of [toy_probs k] gives all its weight to prompt [k], counted
    modulo the number of prompts; [broken_probs] fails on every call. *)

Definition gif_payload : string :=
  "R0lGODlhAQABAIAAAAAAAP///yH5BAEAAAAALAAAAAABAAEAAAIBRAA7".

Definition toy_open (s : string) : Exc nat :=
  if String.eqb s gif_payload then inr 0
  else inl (ValueError "Incorrect padding").

Definition one_hot (k n : nat) : list Q :=
  (λ j, if Nat.eqb j (k mod n) then 1%Q else 0%Q) <$> seq 0 n.

Definition toy_probs (k : nat) (images : list nat) (text_prompts : list string)
    : Exc (list (list Q)) :=
  inr ((λ _, one_hot k (length text_prompts)) <$> images).

Definition broken_probs (images : list nat) (text_prompts : list string)
    : Exc (list (list Q)) :=
  inl (RuntimeError "CUDA out of memory").

(** [{"data": data}] and [{"data": data, "id": id}] *)
Definition item (data : string) (id : option string) : pyval :=
  PDict (match id with
         | Some s => <["id" := PStr s]> (<["data" := PStr data]> ∅)
         | None => <["data" := PStr data]> ∅
         end).

(** [{"input": {"images": items}}] *)
Definition batch_event (items : list pyval) : pyval :=
  PDict (<["input" := PDict (<["images" := PList items]> ∅)]> ∅).

(** A batch of three items in which the second one does not decode, a
    batch of one item that does not decode, and a batch of one that does. *)
Definition three_items : list pyval :=
  [item gif_payload None; item "abc" (Some "b"); item gif_payload (Some "c")].

Definition one_bad_item : list pyval := [item "abc" (Some "a")].

Definition one_good_item : list pyval := [item gif_payload None].

(** The entry the batch handler compiles for [one_good_item] when the model
    gives all its weight to prompt 3 of every vocabulary:
    [{'id': 'image_0', 'success': True,
      'attributes': {'category': 'blouse', 'color': 'clothing',
                     'pattern': 'clothing', 'sleeveLength': 'clothing',
                     'neckline': 'neckline'},
      'confidence': {'category': 1.0, 'color': 1.0, 'pattern': 1.0,
                     'sleeveLength': 1.0, 'neckline': 1.0}}] *)
Definition blouse_entry : gmap string pyval :=
  <["id" := PStr "image_0"]>
  (<["success" := PBool true]>
  (<["attributes" :=
       PDict (<["category" := PStr "blouse"]> (<["color" := PStr "clothing"]>
             (<["pattern" := PStr "clothing"]>
             (<["sleeveLength" := PStr "clothing"]>
             (<["neckline" := PStr "neckline"]> ∅)))))]>
  (<["confidence" :=
       PDict (<["category" := PFloat 1]> (<["color" := PFloat 1]>
             (<["pattern" := PFloat 1]> (<["sleeveLength" := PFloat 1]>
             (<["neckline" := PFloat 1]> ∅)))))]> ∅))).

(** The entry for [one_good_item] when the model gives all its weight to
    prompt 13 ([shoes] for the category):
    [{'id': 'image_0', 'success': True,
      'attributes': {'category': 'shoes', 'color': 'clothing',
                     'pattern': 'clothing'},
      'confidence': {'category': 1.0, 'color': 1.0, 'pattern': 1.0}}] *)
Definition shoes_entry : gmap string pyval :=
  <["id" := PStr "image_0"]>
  (<["success" := PBool true]>
  (<["attributes" :=
       PDict (<["category" := PStr "shoes"]> (<["color" := PStr "clothing"]>
             (<["pattern" := PStr "clothing"]> ∅)))]>
  (<["confidence" :=
       PDict (<["category" := PFloat 1]> (<["color" := PFloat 1]>
             (<["pattern" := PFloat 1]> ∅)))]> ∅))).

(** [{"input": {"images": []}}] *)
Definition empty_event : gmap string pyval :=
  <["input" := PDict (<["images" := PList []]> ∅)]> ∅.

(** The payloads of a batch of [n] images for the embedding service, and
    a remote encoder that embeds a payload as the one-number vector holding
    its length, and fails as soon as a batch holds something that is not a
    string. *)
Definition payloads (n : nat) : list pyval :=
  (λ k, PStr (pretty k)) <$> seq 0 n.

Definition toy_embedding (payload : pyval) : pyval :=
  match payload with
  | PStr s => PList [PFloat (inject_Z (Z.of_nat (String.length s)))]
  | _ => PList []
  end.

Definition toy_encode_image_batch (batch : pyval) : Exc (list pyval) :=
  match batch with
  | PList l =>
      if forallb (λ p, match p with PStr _ => true | _ => false end) l
      then inr (toy_embedding <$> l)
      else inl (TypeError "argument should be a bytes-like object or ASCII string")
  | _ => inl (TypeError "argument should be a bytes-like object or ASCII string")
  end.

(** A remote encoder that embeds whatever it is given, payload by
    payload. *)
Definition toy_encode_all (batch : pyval) : Exc (list pyval) :=
  match batch with
  | PList l => inr (toy_embedding <$> l)
  | _ => inl (TypeError ("'" +:+ type_name batch +:+ "' object is not iterable"))
  end.

Definition toy_encode_one (v : pyval) : Exc (list pyval) :=
  match v with
  | PStr s => inr [PFloat (inject_Z (Z.of_nat (String.length s))); PFloat 0]
  | _ => inl (TypeError "argument should be a bytes-like object or ASCII string")
  end.

Section ClipService.

(** *** [modal_clip_service.py]

    The three remote methods of [CLIPService] are outside the program:
    each takes its argument and yields an embedding (a list of numbers), or
    a list of embeddings for a batch, or raises. *)
Context (encode_image_remote : pyval → Exc (list pyval)).
Context (encode_text_remote : pyval → Exc (list pyval)).
Context (encode_image_batch_remote : pyval → Exc (list pyval)).

(** [service.<method>.remote(argument)]: the call is logged under the name
    of the method. *)
Definition remote (method : string) (f : pyval → Exc (list pyval))
    (argument : pyval) : Logged (string * pyval) (list pyval) :=
  λ lg, (f argument, lg ++ [(method, argument)]).

(** The entry of the log for [service.encode_image_batch.remote(chunk)]. *)
Definition batch_call (chunk : list pyval) : string * pyval :=
  ("encode_image_batch", PList chunk).

Definition encode_image_endpoint (request : pyval)
    : Logged (string * pyval) pyval :=
  type ← logged_lift (py_get request "type" PNone);
  embedding ←
    (if py_eq_str type "text"
     then
       text ← logged_lift (py_getitem request "text");
       remote "encode_text" encode_text_remote text
     else
       image ← logged_lift (py_getitem request "image");
       remote "encode_image" encode_image_remote image);
  mret (PDict (<["dimensions" := PInt (Z.of_nat (length embedding))]>
              (<["embedding" := PList embedding]>
              (<["success" := PBool true]> ∅)))).

(** The body of the loop over the chunks; its state is [all_embeddings]. *)
Definition encode_chunk (images : pyval) (batch_size : nat)
    (all_embeddings : list pyval) (i : nat)
    : Logged (string * pyval) (list pyval) :=
  batch ← logged_lift (py_slice images i (i + batch_size));
  embeddings ← remote "encode_image_batch" encode_image_batch_remote batch;
  mret (all_embeddings ++ embeddings).

Definition encode_batch_endpoint (request : pyval)
    : Logged (string * pyval) pyval :=
  images ← logged_lift (py_get request "images" (PList []));
  let batch_size := 32 in
  n ← logged_lift (py_len images);
  all_embeddings ← for_each (encode_chunk images batch_size) []
                            (range_step n batch_size);
  mret (PDict (<["count" := PInt (Z.of_nat (length all_embeddings))]>
              (<["embeddings" := PList all_embeddings]>
              (<["success" := PBool true]> ∅)))).

End ClipService.

Section World.

(** Decoded images, the decoding of a base64 payload into one (lines
    88-92 of the batch file: [b64decode], [Image.open], [convert]), and the
    scoring of images against prompts (lines 107-118: processor, model,
    softmax), which yields one row of probabilities per image or raises. *)
Context {Image : Type}.
Context (pil_open : string → Exc Image).
Context (clip_probs : list Image → list string → Exc (list (list Q))).

(** A classifier call: the images and the prompts it was given. *)
Definition call : Type := list Image * list string.

(** Computations that may raise and that extend the log of calls. *)
Definition M (A : Type) : Type := list call → Exc A * list call.

#[global] Instance m_ret : MRet M := λ A x lg, (inr x, lg).
#[global] Instance m_bind : MBind M :=
  λ A B f m lg,
    match m lg with
    | (inl e, lg') => (inl e, lg')
    | (inr x, lg') => f x lg'
    end.

Definition lift {A : Type} (c : Exc A) : M A := λ lg, (c, lg).

Definition record_call (c : call) : M unit := λ lg, (inr tt, lg ++ [c]).

(** [try: body except Exception as e: handle e] *)
Definition try_except {A : Type} (body : M A) (handle : exn → M A) : M A :=
  λ lg,
    match body lg with
    | (inl e, lg') => handle e lg'
    | (inr x, lg') => (inr x, lg')
    end.

(** *** [runpod_deepfashion_batch.py] *)

(** [base64.b64decode] accepts a string; any other value is a
    [TypeError]. *)
Definition open_payload (image_data : pyval) : Exc Image :=
  match image_data with
  | PStr s => pil_open s
  | _ => raise (TypeError
                  ("argument should be a bytes-like object or ASCII string, not '"
                   +:+ type_name image_data +:+ "'"))
  end.

Definition decode_image (image_data : pyval) : option Image :=
  match open_payload image_data with
  | inr image => Some image
  | inl _ => None
  end.

(** The body of the loop over the images in [batch_classify]. *)
Definition classify_row (text_prompts : list string) (probs : list (list Q))
    (i : nat) : Exc (gmap string pyval) :=
  row ← list_getitem probs i;
  top_idx ← argmax row;
  confidence ← list_getitem row top_idx;
  prompt ← list_getitem text_prompts top_idx;
  label ← list_last (split prompt);
  mret (<["confidence" := PFloat confidence]> (<["label" := PStr label]> ∅)).

Definition batch_classify (images : list Image) (text_prompts : list string)
    : M (list (gmap string pyval)) :=
  _ ← record_call (images, text_prompts);
  try_except
    (lift (probs ← clip_probs images text_prompts;
           mapM (classify_row text_prompts probs) (seq 0 (length images))))
    (λ _, mret ((λ _, unknown_result) <$> images)).

Definition extract_category_batch (images : list Image)
    : M (list (gmap string pyval)) :=
  let text_prompts := (λ category, "a photo of a " +:+ category) <$> CATEGORY_LABELS in
  results ← batch_classify images text_prompts;
  lift (mapM (λ result : gmap string pyval,
                label ← dict_getitem result "label";
                confidence ← dict_getitem result "confidence";
                mret (<["confidence" := confidence]> (<["category" := label]> ∅)))
             results).

Definition extract_color_batch (images : list Image)
    : M (list (gmap string pyval)) :=
  let text_prompts := (λ color, color +:+ " clothing") <$> COLOR_LABELS in
  results ← batch_classify images text_prompts;
  lift (mapM (λ result : gmap string pyval,
                label ← dict_getitem result "label";
                confidence ← dict_getitem result "confidence";
                mret (<["confidence" := confidence]> (<["color" := label]> ∅)))
             results).

Definition extract_pattern_batch (images : list Image)
    : M (list (gmap string pyval)) :=
  let text_prompts := (λ pattern, pattern +:+ " pattern clothing") <$> PATTERN_LABELS in
  results ← batch_classify images text_prompts;
  lift (mapM (λ result : gmap string pyval,
                label ← dict_getitem result "label";
                confidence ← dict_getitem result "confidence";
                mret (<["confidence" := confidence]> (<["pattern" := label]> ∅)))
             results).

(** [[i for i, cat in enumerate(categories) if cat in valid_categories]] *)
Definition valid_indices_of (categories : list pyval)
    (valid_categories : list string) : list nat :=
  omap (λ ic : nat * pyval, if py_in ic.2 valid_categories then Some ic.1 else None)
       (enumerate categories).

(** The body of the scatter loop of [extract_conditional_attribute]. *)
Definition scatter_step (attribute_name : string)
    (results : list (gmap string pyval))
    (full_results : list (option (gmap string pyval)))
    (ir : nat * nat) : Exc (list (option (gmap string pyval))) :=
  let '(idx, result_idx) := ir in
  result ← list_getitem results idx;
  label ← dict_getitem result "label";
  result' ← list_getitem results idx;
  confidence ← dict_getitem result' "confidence";
  list_setitem full_results result_idx
    (Some (<["confidence" := confidence]> (<[attribute_name := label]> ∅))).

Definition extract_conditional_attribute (images : list Image)
    (categories : list pyval) (attribute_name : string)
    (labels valid_categories : list string) (prompt_template : string)
    : M (list (option (gmap string pyval))) :=
  let valid_indices := valid_indices_of categories valid_categories in
  match valid_indices with
  | [] => mret (replicate (length images) None)
  | _ =>
      valid_images ← lift (mapM (list_getitem images) valid_indices);
      let text_prompts := format_label prompt_template <$> labels in
      results ← batch_classify valid_images text_prompts;
      lift (for_each (scatter_step attribute_name results)
                     (replicate (length images) None)
                     (enumerate valid_indices))
  end.

(** The body of the decoding loop of [handler]; its state is
    [(images, image_ids, failed_indices)]. *)
Definition decode_step
    (st : list Image * list pyval * list (nat * pyval))
    (ii : nat * pyval) : Exc (list Image * list pyval * list (nat * pyval)) :=
  let '(images, image_ids, failed_indices) := st in
  let '(i, item) := ii in
  image_data ← py_get item "data" PNone;
  image_id ← py_get item "id" (PStr ("image_" +:+ pretty i));
  match decode_image image_data with
  | Some image => mret (images ++ [image], image_ids ++ [image_id], failed_indices)
  | None => mret (images, image_ids, failed_indices ++ [(i, image_id)])
  end.

(** [if result: attributes[key] = result[key];
                confidence[key] = result['confidence']],
    the block the handler repeats for each conditional attribute; the
    state is [(attributes, confidence)]. *)
Definition add_conditional (key : string)
    (result : option (gmap string pyval))
    (ac : gmap string pyval * gmap string pyval)
    : Exc (gmap string pyval * gmap string pyval) :=
  match result with
  | None => mret ac
  | Some d =>
      if bool_decide (d = ∅) then mret ac
      else
        v ← dict_getitem d key;
        c ← dict_getitem d "confidence";
        mret (<[key := v]> ac.1, <[key := c]> ac.2)
  end.

(** The body of the loop that compiles the result of image [i]. *)
Definition compile_step
    (category_results color_results pattern_results : list (gmap string pyval))
    (sleeve_results neckline_results length_results
       : list (option (gmap string pyval)))
    (image_ids : list pyval)
    (results : list pyval) (i : nat) : Exc (list pyval) :=
  cat_r ← list_getitem category_results i;
  category ← dict_getitem cat_r "category";
  col_r ← list_getitem color_results i;
  color ← dict_getitem col_r "color";
  pat_r ← list_getitem pattern_results i;
  pattern ← dict_getitem pat_r "pattern";
  let attributes : gmap string pyval :=
    <["pattern" := pattern]> (<["color" := color]> (<["category" := category]> ∅)) in
  category_c ← dict_getitem cat_r "confidence";
  color_c ← dict_getitem col_r "confidence";
  pattern_c ← dict_getitem pat_r "confidence";
  let confidence : gmap string pyval :=
    <["pattern" := pattern_c]> (<["color" := color_c]> (<["category" := category_c]> ∅)) in
  sleeve ← list_getitem sleeve_results i;
  ac ← add_conditional "sleeveLength" sleeve (attributes, confidence);
  neckline ← list_getitem neckline_results i;
  ac ← add_conditional "neckline" neckline ac;
  len ← list_getitem length_results i;
  ac ← add_conditional "length" len ac;
  image_id ← list_getitem image_ids i;
  mret (results ++
        [PDict (<["confidence" := PDict ac.2]>
               (<["attributes" := PDict ac.1]>
               (<["success" := PBool true]>
               (<["id" := image_id]> ∅))))]).

(** [{"total": ..., "successful": ..., "failed": ..., "processing_time":
    ..., "images_per_second": ...}] *)
Definition stats_dict (total successful failed : nat)
    (processing_time images_per_second : Q) : pyval :=
  PDict (<["images_per_second" := PFloat images_per_second]>
        (<["processing_time" := PFloat processing_time]>
        (<["failed" := PInt (Z.of_nat failed)]>
        (<["successful" := PInt (Z.of_nat successful)]>
        (<["total" := PInt (Z.of_nat total)]> ∅))))).

(** Lines 235-290 of [handler]: the extraction passes over the decoded
    images and the loop that compiles one entry per decoded image. *)
Definition extract_attributes (images : list Image) (image_ids : list pyval)
    : M (list pyval) :=
  category_results ← extract_category_batch images;
  categories ← lift (mapM (λ r, dict_getitem r "category") category_results);
  color_results ← extract_color_batch images;
  pattern_results ← extract_pattern_batch images;
  sleeve_results ← extract_conditional_attribute images categories
    "sleeveLength" SLEEVE_LENGTH_LABELS SLEEVE_CATEGORIES
    "{label} sleeve clothing";
  neckline_results ← extract_conditional_attribute images categories
    "neckline" NECKLINE_LABELS NECKLINE_CATEGORIES "{label} neckline";
  length_results ← extract_conditional_attribute images categories
    "length" LENGTH_LABELS LENGTH_CATEGORIES "{label} length dress";
  lift (for_each
          (compile_step category_results color_results pattern_results
             sleeve_results neckline_results length_results image_ids)
          [] (seq 0 (length images))).

(** The statements of [handler] inside its [try]; [print] is left out
    except for the division it evaluates on line 298. *)
Definition handler_body (event : pyval) (start_time end_time : Q) : M pyval :=
  input_data ← lift (py_get event "input" (PDict ∅));
  image_items ← lift (py_get input_data "images" (PList []));
  if negb (truthy image_items) then mret (error_response "No images provided")
  else
    total ← lift (py_len image_items);
    items ← lift (py_iter image_items);
    st ← lift (for_each decode_step ([], [], []) (enumerate items));
    let '(images, image_ids, failed_indices) := st in
    match images with
    | [] => mret (error_response "All images failed to decode")
    | _ =>
        results ← extract_attributes images image_ids;
        let results :=
          foldl (λ results (f : nat * pyval),
                   list_insert_at f.1 (failed_entry f.2) results)
                results failed_indices in
        let processing_time := (end_time - start_time)%Q in
        _ ← lift (py_div (length images) processing_time);
        images_per_second ← lift (py_div (length images) processing_time);
        mret (PDict (<["stats" := stats_dict total (length images)
                                    (length failed_indices)
                                    processing_time images_per_second]>
                    (<["results" := PList results]> ∅)))
    end.

(** [start_time] and [end_time] are the two readings of the clock. *)
Definition handler (event : pyval) (start_time end_time : Q) : M pyval :=
  try_except (handler_body event start_time end_time)
             (λ e, mret (error_response (str_exn e))).

(** *** [modal_deepfashion.py], class [DeepFashionExtractor] *)

Definition preprocess_image (image_data mime_type : pyval) : Exc Image :=
  match open_payload image_data with
  | inr image => mret image
  | inl e => raise (ValueError ("Failed to preprocess image: " +:+ str_exn e))
  end.

(** The block every [extract_*] method repeats: score one image against
    the prompts, take row 0 of the softmax, its argmax and the
    probability there. *)
Definition top_prompt (image : Image) (text_prompts : list string)
    : M (nat * Q) :=
  _ ← record_call ([image], text_prompts);
  lift (probs ← clip_probs [image] text_prompts;
        row ← list_getitem probs 0;
        top_idx ← argmax row;
        confidence ← list_getitem row top_idx;
        mret (top_idx, confidence)).

(** [{key: labels[top_idx], 'confidence': float(confidence)}] *)
Definition labelled (key : string) (labels : list string) (tc : nat * Q)
    : M (gmap string pyval) :=
  label ← lift (list_getitem labels tc.1);
  mret (<["confidence" := PFloat tc.2]> (<[key := PStr label]> ∅)).

Definition extract_category (image : Image) : M (gmap string pyval) :=
  let text_prompts := (λ category, "a photo of a " +:+ category) <$> CATEGORY_LABELS in
  tc ← top_prompt image text_prompts;
  labelled "category" CATEGORY_LABELS tc.

Definition extract_color (image : Image) : M (gmap string pyval) :=
  let text_prompts := (λ color, color +:+ " clothing") <$> COLOR_LABELS in
  tc ← top_prompt image text_prompts;
  labelled "color" COLOR_LABELS tc.

Definition extract_sleeve_length (image : Image) (category : pyval)
    : M (option (gmap string pyval)) :=
  if negb (py_in category
             ["dress"; "top"; "shirt"; "blouse"; "t-shirt"; "sweater";
              "hoodie"; "jacket"; "coat"])
  then mret None
  else
    let text_prompts := (λ sleeve, sleeve +:+ " sleeve clothing") <$> SLEEVE_LENGTH_LABELS in
    tc ← top_prompt image text_prompts;
    r ← labelled "sleeveLength" SLEEVE_LENGTH_LABELS tc;
    mret (Some r).

Definition extract_gender (image : Image) : M (gmap string pyval) :=
  let text_prompts := (λ gender, gender +:+ " fashion") <$> GENDER_LABELS in
  tc ← top_prompt image text_prompts;
  labelled "gender" GENDER_LABELS tc.

Definition extract_pattern (image : Image) : M (gmap string pyval) :=
  let text_prompts := (λ pattern, pattern +:+ " pattern clothing") <$> PATTERN_LABELS in
  tc ← top_prompt image text_prompts;
  labelled "pattern" PATTERN_LABELS tc.

Definition extract_neckline (image : Image) (category : pyval)
    : M (option (gmap string pyval)) :=
  if negb (py_in category
             ["dress"; "top"; "shirt"; "blouse"; "t-shirt"; "sweater"])
  then mret None
  else
    let text_prompts := (λ neckline, neckline +:+ " neckline") <$> NECKLINE_LABELS in
    tc ← top_prompt image text_prompts;
    r ← labelled "neckline" NECKLINE_LABELS tc;
    mret (Some r).

Definition extract_length (image : Image) (category : pyval)
    : M (option (gmap string pyval)) :=
  if negb (py_in category ["dress"; "skirt"])
  then mret None
  else
    let text_prompts := (λ length, length +:+ " length dress") <$> LENGTH_LABELS in
    tc ← top_prompt image text_prompts;
    r ← labelled "length" LENGTH_LABELS tc;
    mret (Some r).

(** [if result: results[key] = result[key];
                results['confidence'][key] = result['confidence']] *)
Definition set_conditional (key : string)
    (result : option (gmap string pyval)) (results : gmap string pyval)
    : Exc (gmap string pyval) :=
  match result with
  | None => mret results
  | Some d =>
      if bool_decide (d = ∅) then mret results
      else
        v ← dict_getitem d key;
        let results := <[key := v]> results in
        conf ← dict_getitem results "confidence";
        c ← dict_getitem d "confidence";
        match conf with
        | PDict cd => mret (<["confidence" := PDict (<[key := c]> cd)]> results)
        | _ => raise (TypeError
                        ("'" +:+ type_name conf
                         +:+ "' object does not support item assignment"))
        end
  end.

(** The [except] clause of [analyze] re-raises, so an exception of the
    body is the exception of [analyze]. *)
Definition analyze (image_data mime_type : pyval) : M pyval :=
  image ← lift (preprocess_image image_data mime_type);
  category_result ← extract_category image;
  category ← lift (dict_getitem category_result "category");
  color_result ← extract_color image;
  gender_result ← extract_gender image;
  pattern_result ← extract_pattern image;
  sleeve_result ← extract_sleeve_length image category;
  neckline_result ← extract_neckline image category;
  length_result ← extract_length image category;
  color ← lift (dict_getitem color_result "color");
  gender ← lift (dict_getitem gender_result "gender");
  pattern ← lift (dict_getitem pattern_result "pattern");
  category_c ← lift (dict_getitem category_result "confidence");
  color_c ← lift (dict_getitem color_result "confidence");
  gender_c ← lift (dict_getitem gender_result "confidence");
  pattern_c ← lift (dict_getitem pattern_result "confidence");
  let confidence : gmap string pyval :=
    <["pattern" := pattern_c]> (<["gender" := gender_c]>
    (<["color" := color_c]> (<["category" := category_c]> ∅))) in
  let results : gmap string pyval :=
    <["confidence" := PDict confidence]> (<["pattern" := pattern]>
    (<["gender" := gender]> (<["color" := color]>
    (<["category" := category]> ∅)))) in
  results ← lift (set_conditional "sleeveLength" sleeve_result results);
  results ← lift (set_conditional "neckline" neckline_result results);
  results ← lift (set_conditional "length" length_result results);
  mret (PDict results).

(** The web endpoint of [modal_deepfashion.py];
    [extractor.analyze.remote(...)] is the call of [analyze]. *)
Definition analyze_fashion_image (request_data : pyval) : M pyval :=
  try_except
    (image_data ← lift (py_get request_data "image" PNone);
     mime_type ← lift (py_get request_data "mimeType" (PStr "image/jpeg"));
     if negb (truthy image_data)
     then mret (PDict (<["error" := PStr "No image data provided"]>
                      (<["success" := PBool false]> ∅)))
     else
       results ← analyze image_data mime_type;
       mret (PDict (<["attributes" := results]>
                   (<["success" := PBool true]> ∅))))
    (λ e, mret (PDict (<["error" := PStr (str_exn e)]>
                      (<["success" := PBool false]> ∅)))).

(** *** Vocabulary of the statements *)

Definition is_dict (v : pyval) : bool :=
  match v with PDict _ => true | _ => false end.

(** The id the handler reads from item [i]: the caller's, or
    ["image_<i>"] when the item has none. *)
Definition item_id (i : nat) (item : pyval) : pyval :=
  match item with
  | PDict d => default (PStr ("image_" +:+ pretty i)) (d !! "id")
  | _ => PNone
  end.

(** The image an item decodes to, if it does. *)
Definition item_image (item : pyval) : option Image :=
  match item with
  | PDict d => decode_image (default PNone (d !! "data"))
  | _ => None
  end.

(** The three lists the decoding loop builds from the items numbered from
    [k] on. *)
Definition decoded_images (items : list pyval) : list Image :=
  omap item_image items.

Definition decoded_ids (k : nat) (items : list pyval) : list pyval :=
  omap (λ ii : nat * pyval,
          match item_image ii.2 with
          | Some _ => Some (item_id ii.1 ii.2)
          | None => None
          end)
       (enumerate_from k items).

Definition failed_items (k : nat) (items : list pyval) : list (nat * pyval) :=
  omap (λ ii : nat * pyval,
          match item_image ii.2 with
          | Some _ => None
          | None => Some (ii.1, item_id ii.1 ii.2)
          end)
       (enumerate_from k items).

(** The position, among the decoded images, of the image of item [i]: the
    number of items before it that decode. *)
Definition decoded_index (i : nat) (items : list pyval) : nat :=
  length (decoded_images (take i items)).

(** [{key: label, 'confidence': confidence}] *)
Definition result_dict (key : string) (lc : string * Q) : gmap string pyval :=
  <["confidence" := PFloat lc.2]> (<[key := PStr lc.1]> ∅).

(** A list of such dictionaries, and a list with gaps. *)
Definition dicts (key : string) (lcs : list (string * Q))
    : list (gmap string pyval) :=
  result_dict key <$> lcs.

Definition option_dicts (key : string) (sls : list (option (string * Q)))
    : list (option (gmap string pyval)) :=
  fmap (M := option) (result_dict key) <$> sls.

(** What the handler extracted for one image: a label and a confidence
    for each unconditional attribute, and for each conditional attribute
    that was extracted. *)
Record attribute_set : Type := {
  as_category : string * Q;
  as_color : string * Q;
  as_pattern : string * Q;
  as_sleeve : option (string * Q);
  as_neckline : option (string * Q);
  as_length : option (string * Q)
}.

Definition with_conditional (key : string) (o : option (string * Q))
    (ac : gmap string pyval * gmap string pyval)
    : gmap string pyval * gmap string pyval :=
  match o with
  | Some lc => (<[key := PStr lc.1]> ac.1, <[key := PFloat lc.2]> ac.2)
  | None => ac
  end.

(** The [attributes] and [confidence] dictionaries of an entry. *)
Definition entry_dicts (a : attribute_set)
    : gmap string pyval * gmap string pyval :=
  with_conditional "length" (as_length a)
    (with_conditional "neckline" (as_neckline a)
      (with_conditional "sleeveLength" (as_sleeve a)
        (<["pattern" := PStr (as_pattern a).1]>
           (<["color" := PStr (as_color a).1]>
           (<["category" := PStr (as_category a).1]> ∅)),
         <["pattern" := PFloat (as_pattern a).2]>
           (<["color" := PFloat (as_color a).2]>
           (<["category" := PFloat (as_category a).2]> ∅))))).

(** [{'id': id, 'success': True, 'attributes': ..., 'confidence': ...}] *)
Definition success_entry (image_id : pyval) (a : attribute_set) : pyval :=
  PDict (<["confidence" := PDict (entry_dicts a).2]>
        (<["attributes" := PDict (entry_dicts a).1]>
        (<["success" := PBool true]>
        (<["id" := image_id]> ∅)))).

(** The entries of the decoded images and the markers of the failed
    items, in the order of the items. *)
Fixpoint recombine (k : nat) (items entries : list pyval) : list pyval :=
  match items with
  | [] => entries
  | item :: items' =>
      match item_image item with
      | Some _ =>
          match entries with
          | e :: entries' => e :: recombine (S k) items' entries'
          | [] => recombine (S k) items' []
          end
      | None => failed_entry (item_id k item) :: recombine (S k) items' entries
      end
  end.

(** [{"results": results, "stats": stats}] *)
Definition ok_response (results : list pyval) (stats : pyval) : pyval :=
  PDict (<["stats" := stats]> (<["results" := PList results]> ∅)).

(** The entry of an image when every classification has degraded:
    [{'id': id, 'success': True,
      'attributes': {'category': 'unknown', 'color': 'unknown',
                     'pattern': 'unknown'},
      'confidence': {'category': 0.0, 'color': 0.0, 'pattern': 0.0}}] *)
Definition unknown_entry (image_id : pyval) : pyval :=
  PDict (<["confidence" :=
             PDict (<["pattern" := PFloat 0]> (<["color" := PFloat 0]>
                   (<["category" := PFloat 0]> ∅)))]>
        (<["attributes" :=
             PDict (<["pattern" := PStr "unknown"]> (<["color" := PStr "unknown"]>
                   (<["category" := PStr "unknown"]> ∅)))]>
        (<["success" := PBool true]>
        (<["id" := image_id]> ∅)))).

(** The model fails on every call. *)
Definition broken : Prop :=
  ∀ images text_prompts, ∃ e, clip_probs images text_prompts = inl e.

(** The gate of a conditional attribute, and what a classification
    degrades to when the model is broken. *)
Definition gated {A : Type} (valid : list string) (category : string)
    (o : option A) : Prop :=
  is_Some o ↔ category ∈ valid.

Definition degraded (lc : string * Q) : Prop :=
  broken → lc = ("unknown", 0%Q).

Definition well_gated (a : attribute_set) : Prop :=
  gated SLEEVE_CATEGORIES (as_category a).1 (as_sleeve a) ∧
  gated NECKLINE_CATEGORIES (as_category a).1 (as_neckline a) ∧
  gated LENGTH_CATEGORIES (as_category a).1 (as_length a) ∧
  degraded (as_category a) ∧ degraded (as_color a) ∧ degraded (as_pattern a).

(** The gate on the three conditional attributes, read off the two
    dictionaries of an attribute set: each key is present exactly when the
    category is one of the attribute's valid categories. *)
Definition gating_holds (attributes confidence : gmap string pyval)
    (category : string) : Prop :=
  (is_Some (attributes !! "sleeveLength") ↔ category ∈ SLEEVE_CATEGORIES)
  ∧ (is_Some (confidence !! "sleeveLength") ↔ category ∈ SLEEVE_CATEGORIES)
  ∧ (is_Some (attributes !! "neckline") ↔ category ∈ NECKLINE_CATEGORIES)
  ∧ (is_Some (confidence !! "neckline") ↔ category ∈ NECKLINE_CATEGORIES)
  ∧ (is_Some (attributes !! "length") ↔ category ∈ LENGTH_CATEGORIES)
  ∧ (is_Some (confidence !! "length") ↔ category ∈ LENGTH_CATEGORIES).

(** How the entry at position [ii.1] of the results relates to the item
    [ii.2] at that position of the request. *)
Definition entry_ok (ii : nat * pyval) (r : pyval) : Prop :=
  match item_image ii.2 with
  | Some _ => ∃ a, r = success_entry (item_id ii.1 ii.2) a ∧ well_gated a
  | None => r = failed_entry (item_id ii.1 ii.2)
  end.

(** ** Running computations *)

Lemma bind_run {A B : Type} (m : M A) (f : A → M B) lg x lg' :
  m lg = (inr x, lg') → (m ≫= f) lg = f x lg'.
Proof. intros H. unfold mbind, m_bind. by rewrite H. Qed.

Lemma bind_raise {A B : Type} (m : M A) (f : A → M B) lg e lg' :
  m lg = (inl e, lg') → (m ≫= f) lg = (inl e, lg').
Proof. intros H. unfold mbind, m_bind. by rewrite H. Qed.

Lemma lift_run {A B : Type} (c : Exc A) (f : A → M B) lg x :
  c = inr x → (lift c ≫= f) lg = f x lg.
Proof. intros ->. reflexivity. Qed.

Lemma lift_raise {A B : Type} (c : Exc A) (f : A → M B) lg e :
  c = inl e → (lift c ≫= f) lg = (inl e, lg).
Proof. intros ->. reflexivity. Qed.

Lemma mapM_exc_fmap {A B : Type} (f : A → Exc B) (g : A → B) (l : list A) :
  (∀ x, x ∈ l → f x = inr (g x)) → mapM f l = inr (g <$> l).
Proof.
  induction l as [|x l IH]; intros Hf; [done|].
  cbn. rewrite Hf by left. cbn.
  rewrite IH; [done|]. intros y Hy. apply Hf. by right.
Qed.

Lemma mapM_exc_inv {A B : Type} (f : A → Exc B) (l : list A) (k : list B) :
  mapM f l = inr k → Forall2 (λ x y, f x = inr y) l k.
Proof.
  revert k. induction l as [|x l IH]; intros k.
  - cbn. intros [= <-]. constructor.
  - cbn. destruct (f x) as [e|y] eqn:Hx; [done|]. cbn.
    destruct (mapM f l) as [e|k'] eqn:Hl; [done|]. cbn.
    intros [= <-]. constructor; [done|]. by apply IH.
Qed.

Lemma fmap_preimage {A B : Type} (f : A → B) (P : A → Prop) (l : list B) :
  Forall (λ y, ∃ x, y = f x ∧ P x) l →
  ∃ k, l = f <$> k ∧ Forall P k.
Proof.
  induction 1 as [|y l (x & -> & Hx) _ (k & -> & Hk)].
  - by exists [].
  - exists (x :: k). split; [done|]. by constructor.
Qed.

(** ** The classifier *)

Lemma unknown_result_dict : unknown_result = result_dict "label" ("unknown", 0%Q).
Proof. reflexivity. Qed.

Lemma classify_row_inv text_prompts probs i d :
  classify_row text_prompts probs i = inr d → ∃ lc, d = result_dict "label" lc.
Proof.
  unfold classify_row.
  destruct (list_getitem probs i) as [|row]; [done|]. cbn.
  destruct (argmax row) as [|top_idx]; [done|]. cbn.
  destruct (list_getitem row top_idx) as [|confidence]; [done|]. cbn.
  destruct (list_getitem text_prompts top_idx) as [|prompt]; [done|]. cbn.
  destruct (list_last (split prompt)) as [|label]; [done|]. cbn.
  intros [= <-]. by exists (label, confidence).
Qed.

Lemma degraded_unknown : degraded ("unknown", 0%Q).
Proof. by intros _. Qed.

Lemma batch_classify_fallback (images : list Image)
    (text_prompts : list string) (lg : list call) :
  let lcs := (λ _ : Image, ("unknown", 0%Q)) <$> images in
  (inr ((λ _ : Image, unknown_result) <$> images), lg ++ [(images, text_prompts)])
  = (inr (dicts "label" lcs) : Exc _, lg ++ [(images, text_prompts)])
  ∧ length lcs = length images ∧ Forall degraded lcs.
Proof.
  intros lcs. unfold lcs, dicts. split_and!.
  - by rewrite <-list_fmap_compose.
  - by rewrite length_fmap.
  - apply Forall_fmap, Forall_true. intros image. apply degraded_unknown.
Qed.

(** [batch_classify] never raises: it records the call and returns one
    [{label, confidence}] dictionary per image. *)
Lemma batch_classify_run images text_prompts lg :
  ∃ lcs,
    batch_classify images text_prompts lg
    = (inr (dicts "label" lcs), lg ++ [(images, text_prompts)])
    ∧ length lcs = length images ∧ Forall degraded lcs.
Proof.
  unfold batch_classify, record_call, try_except, lift, mbind, m_bind.
  destruct (clip_probs images text_prompts) as [e|probs] eqn:Hp; cbn.
  { eexists. apply batch_classify_fallback. }
  destruct (mapM _ _) as [e|rs] eqn:Hrs; cbn.
  { eexists. apply batch_classify_fallback. }
  apply mapM_exc_inv in Hrs.
  destruct (fmap_preimage (result_dict "label") (λ _, True) rs) as (lcs & -> & _).
  { eapply Forall2_Forall_r; [exact Hrs|]. apply Forall_true.
    intros i d Hd. apply classify_row_inv in Hd as [lc ->]. by exists lc. }
  exists lcs. split_and!; [done| |].
  - apply Forall2_length in Hrs. by rewrite length_fmap, length_seq in Hrs.
  - apply Forall_true. intros lc [e He]%(λ H, H images text_prompts). congruence.
Qed.

(** The comprehension that renames the key [label] of every result. *)
Lemma rekey_run (key : string) (lcs : list (string * Q)) :
  mapM (λ result : gmap string pyval,
          label ← dict_getitem result "label";
          confidence ← dict_getitem result "confidence";
          mret (<["confidence" := confidence]> (<[key := label]> ∅)))
       (dicts "label" lcs)
  = inr (dicts key lcs).
Proof.
  unfold dicts. induction lcs as [|lc lcs IH]; [done|].
  rewrite !fmap_cons. cbn [mapM]. rewrite IH. reflexivity.
Qed.

Lemma extract_category_batch_run images lg :
  ∃ lcs,
    extract_category_batch images lg
    = (inr (dicts "category" lcs),
       lg ++ [(images, (λ category, "a photo of a " +:+ category) <$> CATEGORY_LABELS)])
    ∧ length lcs = length images ∧ Forall degraded lcs.
Proof.
  unfold extract_category_batch.
  destruct (batch_classify_run images
    ((λ category, "a photo of a " +:+ category) <$> CATEGORY_LABELS) lg)
    as (lcs & Hrun & Hlen & Hdeg).
  exists lcs. split_and!; [|done..].
  erewrite bind_run by exact Hrun. unfold lift. by rewrite rekey_run.
Qed.

Lemma extract_color_batch_run images lg :
  ∃ lcs,
    extract_color_batch images lg
    = (inr (dicts "color" lcs),
       lg ++ [(images, (λ color, color +:+ " clothing") <$> COLOR_LABELS)])
    ∧ length lcs = length images ∧ Forall degraded lcs.
Proof.
  unfold extract_color_batch.
  destruct (batch_classify_run images
    ((λ color, color +:+ " clothing") <$> COLOR_LABELS) lg)
    as (lcs & Hrun & Hlen & Hdeg).
  exists lcs. split_and!; [|done..].
  erewrite bind_run by exact Hrun. unfold lift. by rewrite rekey_run.
Qed.

Lemma extract_pattern_batch_run images lg :
  ∃ lcs,
    extract_pattern_batch images lg
    = (inr (dicts "pattern" lcs),
       lg ++ [(images, (λ pattern, pattern +:+ " pattern clothing") <$> PATTERN_LABELS)])
    ∧ length lcs = length images ∧ Forall degraded lcs.
Proof.
  unfold extract_pattern_batch.
  destruct (batch_classify_run images
    ((λ pattern, pattern +:+ " pattern clothing") <$> PATTERN_LABELS) lg)
    as (lcs & Hrun & Hlen & Hdeg).
  exists lcs. split_and!; [|done..].
  erewrite bind_run by exact Hrun. unfold lift. by rewrite rekey_run.
Qed.

(** ** The conditional extractor *)

Lemma enumerate_from_lookup {A : Type} (k : nat) (l : list A) (i : nat) :
  enumerate_from k l !! i = (λ x, (k + i, x)) <$> l !! i.
Proof.
  revert k i. induction l as [|x l IH]; intros k [|i]; cbn; try done.
  - by rewrite Nat.add_0_r.
  - rewrite IH. by replace (S k + i) with (k + S i) by lia.
Qed.

Lemma length_enumerate_from {A : Type} (k : nat) (l : list A) :
  length (enumerate_from k l) = length l.
Proof. revert k. induction l as [|x l IH]; intros k; cbn; [done|]. by rewrite IH. Qed.

Lemma elem_of_valid_from (valid : list string) (categories : list pyval) k i :
  i ∈ omap (λ ic : nat * pyval, if py_in ic.2 valid then Some ic.1 else None)
           (enumerate_from k categories)
  ↔ k ≤ i ∧ ∃ cat, categories !! (i - k) = Some cat ∧ py_in cat valid = true.
Proof.
  revert k. induction categories as [|c cs IH]; intros k; cbn.
  - split; [by intros ?%elem_of_nil|]. by intros (_ & cat & ? & _).
  - destruct (py_in c valid) eqn:Hc; cbn.
    + rewrite elem_of_cons, IH. split.
      * intros [->|(Hle & cat & Hcat & Hin)].
        -- split; [lia|]. exists c. by rewrite Nat.sub_diag.
        -- split; [lia|]. exists cat. split; [|done].
           by replace (i - k) with (S (i - S k)) by lia.
      * intros (Hle & cat & Hcat & Hin).
        destruct (decide (i = k)) as [->|Hne]; [by left|right].
        split; [lia|]. exists cat. split; [|done].
        by replace (i - k) with (S (i - S k)) in Hcat by lia.
    + rewrite IH. split.
      * intros (Hle & cat & Hcat & Hin). split; [lia|]. exists cat.
        split; [|done]. by replace (i - k) with (S (i - S k)) by lia.
      * intros (Hle & cat & Hcat & Hin).
        destruct (decide (i = k)) as [->|Hne].
        { rewrite Nat.sub_diag in Hcat. cbn in Hcat. congruence. }
        split; [lia|]. exists cat. split; [|done].
        by replace (i - k) with (S (i - S k)) in Hcat by lia.
Qed.

Lemma NoDup_valid_from (valid : list string) (categories : list pyval) k :
  NoDup (omap (λ ic : nat * pyval, if py_in ic.2 valid then Some ic.1 else None)
              (enumerate_from k categories)).
Proof.
  revert k. induction categories as [|c cs IH]; intros k; cbn.
  - constructor.
  - destruct (py_in c valid); cbn; [|apply IH].
    constructor; [|apply IH]. rewrite elem_of_valid_from. lia.
Qed.

Lemma elem_of_valid_indices categories valid i :
  i ∈ valid_indices_of categories valid
  ↔ ∃ cat, categories !! i = Some cat ∧ py_in cat valid = true.
Proof.
  unfold valid_indices_of, enumerate. rewrite elem_of_valid_from, Nat.sub_0_r.
  split; [by intros [_ ?]|]. intros ?. split; [lia|done].
Qed.

Lemma valid_indices_lt categories valid i :
  i ∈ valid_indices_of categories valid → i < length categories.
Proof.
  rewrite elem_of_valid_indices. intros (cat & Hcat & _).
  by apply lookup_lt_Some in Hcat.
Qed.

Lemma mapM_getitem {A : Type} (l : list A) (indices : list nat) :
  (∀ i, i ∈ indices → i < length l) →
  ∃ xs, mapM (list_getitem l) indices = inr xs ∧ length xs = length indices.
Proof.
  induction indices as [|i indices IH]; intros Hlt.
  - by exists [].
  - destruct IH as (xs & Hxs & Hlen).
    { intros j Hj. apply Hlt. by right. }
    destruct (lookup_lt_is_Some_2 l i) as [x Hx]; [apply Hlt; by left|].
    exists (x :: xs). cbn [mapM]. rewrite Hxs.
    unfold list_getitem. rewrite Hx. cbn. by rewrite Hlen.
Qed.

Lemma dict_getitem_label key lc :
  key ≠ "confidence" →
  dict_getitem (result_dict key lc) key = inr (PStr lc.1).
Proof.
  intros Hk. unfold dict_getitem, result_dict.
  by rewrite lookup_insert_ne, lookup_insert_eq.
Qed.

Lemma dict_getitem_confidence key lc :
  dict_getitem (result_dict key lc) "confidence" = inr (PFloat lc.2).
Proof. unfold dict_getitem, result_dict. by rewrite lookup_insert_eq. Qed.

Lemma scatter_step_run attribute_name (lcs : list (string * Q))
    (sls0 : list (option (string * Q))) k j lc :
  lcs !! k = Some lc → j < length sls0 →
  scatter_step attribute_name (dicts "label" lcs)
               (option_dicts attribute_name sls0) (k, j)
  = inr (option_dicts attribute_name (<[j := Some lc]> sls0)).
Proof.
  intros Hlc Hj. unfold scatter_step, dicts, option_dicts.
  unfold list_getitem. rewrite list_lookup_fmap, Hlc. cbn.
  rewrite dict_getitem_label by done. cbn.
  rewrite dict_getitem_confidence. cbn.
  unfold list_setitem. rewrite bool_decide_true by by rewrite length_fmap.
  cbn. by rewrite list_fmap_insert.
Qed.

(** The scatter loop: every valid index receives the result of its rank,
    the other positions are left as they were. *)
Lemma scatter_run attribute_name (lcs : list (string * Q)) (vi : list nat) :
  ∀ k0 (sls0 : list (option (string * Q))),
    NoDup vi →
    (∀ i, i ∈ vi → i < length sls0) →
    k0 + length vi ≤ length lcs →
    ∃ sls : list (option (string * Q)),
      for_each (scatter_step attribute_name (dicts "label" lcs))
               (option_dicts attribute_name sls0)
               (enumerate_from k0 vi)
      = inr (option_dicts attribute_name sls)
      ∧ length sls = length sls0
      ∧ (∀ i, i ∉ vi → sls !! i = sls0 !! i)
      ∧ (∀ idx i, vi !! idx = Some i → sls !! i = Some (lcs !! (k0 + idx))).
Proof.
  induction vi as [|j vi IH]; intros k0 sls0 Hnd Hlt Hlen.
  - exists sls0. split_and!; [done..|]. intros idx i. by rewrite lookup_nil.
  - apply NoDup_cons in Hnd as [Hj Hnd]. cbn in Hlen.
    destruct (lookup_lt_is_Some_2 lcs k0) as [lc Hlc]; [lia|].
    destruct (IH (S k0) (<[j := Some lc]> sls0)) as (sls & Hrun & Hl & Hout & Hin).
    { done. }
    { intros i Hi. rewrite length_insert. apply Hlt. by right. }
    { lia. }
    exists sls. split_and!.
    + cbn [enumerate_from for_each].
      rewrite (scatter_step_run _ _ _ _ _ lc) by (done || apply Hlt; by left).
      exact Hrun.
    + by rewrite Hl, length_insert.
    + intros i Hi. apply not_elem_of_cons in Hi as [Hne Hi].
      rewrite Hout by done. by rewrite list_lookup_insert_ne.
    + intros [|idx] i Hi; cbn in Hi.
      * injection Hi as ->. rewrite Hout by done.
        rewrite list_lookup_insert_eq by (apply Hlt; by left).
        by rewrite Nat.add_0_r, Hlc.
      * rewrite (Hin idx i Hi). by replace (S k0 + idx) with (k0 + S idx) by lia.
Qed.

(** What [extract_conditional_attribute] does, for categories that are
    aligned with the images: [valid_images] is the subset it classifies,
    [lcs] what the classifier returns for the subset, [sls] the list it
    returns, seen as labels and confidences. *)
Lemma conditional_run images categories attribute_name labels
    valid_categories prompt_template lg :
  length categories = length images →
  let vi := valid_indices_of categories valid_categories in
  let text_prompts := format_label prompt_template <$> labels in
  ∃ (sls : list (option (string * Q))) valid_images lcs,
    mapM (list_getitem images) vi = inr valid_images
    ∧ batch_classify valid_images text_prompts lg
      = (inr (dicts "label" lcs), lg ++ [(valid_images, text_prompts)])
    ∧ length lcs = length vi ∧ Forall degraded lcs
    ∧ length sls = length images
    ∧ (∀ i, i ∉ vi → i < length images → sls !! i = Some None)
    ∧ (∀ k i, vi !! k = Some i → sls !! i = Some (lcs !! k))
    ∧ extract_conditional_attribute images categories attribute_name labels
        valid_categories prompt_template lg
      = (inr (option_dicts attribute_name sls),
         match vi with [] => lg | _ => lg ++ [(valid_images, text_prompts)] end).
Proof.
  intros Hlen vi text_prompts.
  destruct (mapM_getitem images vi) as (valid_images & Hsel & Hsel_len).
  { intros i Hi%valid_indices_lt. lia. }
  destruct (batch_classify_run valid_images text_prompts lg)
    as (lcs & Hrun & Hlcs & Hdeg).
  unfold extract_conditional_attribute. fold vi. fold text_prompts.
  destruct vi as [|j vi'] eqn:Hvi.
  - exists (replicate (length images) None), valid_images, lcs.
    split_and!; [done|done|by rewrite Hlcs, Hsel_len|done| | | |].
    + by rewrite length_replicate.
    + intros i _ Hi. by rewrite lookup_replicate_2.
    + intros k i. by rewrite lookup_nil.
    + unfold option_dicts. by rewrite fmap_replicate.
  - destruct (scatter_run attribute_name lcs (j :: vi') 0
                (replicate (length images) None))
      as (sls & Hsc & Hsl & Hout & Hin).
    { rewrite <-Hvi. apply NoDup_valid_from. }
    { intros i Hi. rewrite length_replicate, <-Hlen.
      apply (valid_indices_lt _ valid_categories). fold vi. by rewrite Hvi. }
    { rewrite Hlcs, Hsel_len. cbn. lia. }
    exists sls, valid_images, lcs.
    split_and!; [done|done|by rewrite Hlcs, Hsel_len|done| | | |].
    + by rewrite Hsl, length_replicate.
    + intros i Hi Hlt. rewrite Hout by done. by rewrite lookup_replicate_2.
    + intros k i Hk. by rewrite (Hin k i Hk).
    + erewrite lift_run by exact Hsel.
      erewrite bind_run by exact Hrun.
      unfold lift, enumerate.
      replace (replicate (length images) None)
        with (option_dicts attribute_name (replicate (length images) None))
        by (unfold option_dicts; by rewrite fmap_replicate).
      by rewrite Hsc.
Qed.

Lemma py_in_str (s : string) (valid : list string) :
  py_in (PStr s) valid = true ↔ s ∈ valid.
Proof. cbn. by rewrite bool_decide_eq_true. Qed.

(** The gate: position [i] of the result is filled exactly when the
    category of image [i] is a valid one. *)
Lemma conditional_gated images (cats : list (string * Q)) attribute_name
    labels valid_categories prompt_template lg :
  length cats = length images →
  ∃ (sls : list (option (string * Q))) lg',
    extract_conditional_attribute images ((λ lc, PStr lc.1) <$> cats)
      attribute_name labels valid_categories prompt_template lg
    = (inr (option_dicts attribute_name sls), lg')
    ∧ Forall2 (λ (c : string * Q) o, gated valid_categories c.1 o) cats sls.
Proof.
  intros Hlen.
  destruct (conditional_run images ((λ lc, PStr lc.1) <$> cats) attribute_name
              labels valid_categories prompt_template lg)
    as (sls & valid_images & lcs & _ & _ & Hlcs & _ & Hsl & Hout & Hin & Hrun).
  { by rewrite length_fmap. }
  exists sls. eexists. split; [exact Hrun|].
  apply Forall2_same_length_lookup_2; [lia|].
  intros i c o Hc Ho. unfold gated.
  rewrite <-py_in_str.
  assert (i ∈ valid_indices_of ((λ lc, PStr lc.1) <$> cats) valid_categories
          ↔ py_in (PStr c.1) valid_categories = true) as <-.
  { rewrite elem_of_valid_indices, list_lookup_fmap, Hc. cbn.
    split; [by intros (cat & [= <-] & ?)|]. intros ?. by eexists. }
  destruct (decide (i ∈ valid_indices_of ((λ lc, PStr lc.1) <$> cats)
                                         valid_categories)) as [Hi|Hi].
  - split; [done|]. intros _.
    apply list_elem_of_lookup in Hi as [k Hk].
    rewrite (Hin k i Hk) in Ho. injection Ho as <-.
    apply lookup_lt_is_Some_2. rewrite Hlcs. by apply lookup_lt_Some in Hk.
  - split; [|done]. intros Hsome.
    rewrite Hout in Ho; [|done|]. { injection Ho as <-. by destruct Hsome. }
    rewrite <-Hlen. by apply lookup_lt_Some in Hc.
Qed.

(** ** The compile loop *)

Lemma add_conditional_run key (o : option (string * Q)) ac :
  key ≠ "confidence" →
  add_conditional key (result_dict key <$> o) ac = inr (with_conditional key o ac).
Proof.
  intros Hk. destruct o as [lc|]; [|done]. cbn.
  rewrite bool_decide_false by apply insert_non_empty.
  by rewrite dict_getitem_label, dict_getitem_confidence.
Qed.

Lemma compile_step_run (sets : list attribute_set) image_ids results i a image_id :
  sets !! i = Some a → image_ids !! i = Some image_id →
  compile_step (dicts "category" (as_category <$> sets))
               (dicts "color" (as_color <$> sets))
               (dicts "pattern" (as_pattern <$> sets))
               (option_dicts "sleeveLength" (as_sleeve <$> sets))
               (option_dicts "neckline" (as_neckline <$> sets))
               (option_dicts "length" (as_length <$> sets))
               image_ids results i
  = inr (results ++ [success_entry image_id a]).
Proof.
  intros Ha Hid. unfold compile_step, dicts, option_dicts, list_getitem.
  rewrite !list_lookup_fmap, Ha, Hid. cbn.
  rewrite !dict_getitem_label by done. cbn.
  rewrite !dict_getitem_confidence. cbn.
  rewrite add_conditional_run by done. cbn.
  rewrite add_conditional_run by done. cbn.
  rewrite add_conditional_run by done. cbn.
  reflexivity.
Qed.

Lemma compile_loop_run (sets : list attribute_set) image_ids m :
  ∀ k results,
    k + m = length sets → length image_ids = length sets →
    for_each (compile_step (dicts "category" (as_category <$> sets))
                (dicts "color" (as_color <$> sets))
                (dicts "pattern" (as_pattern <$> sets))
                (option_dicts "sleeveLength" (as_sleeve <$> sets))
                (option_dicts "neckline" (as_neckline <$> sets))
                (option_dicts "length" (as_length <$> sets))
                image_ids)
             results (seq k m)
    = inr (results ++ zip_with success_entry (drop k image_ids) (drop k sets)).
Proof.
  induction m as [|m IH]; intros k results Hk Hids.
  - cbn. rewrite (drop_ge sets) by lia. rewrite zip_with_nil_r.
    by rewrite app_nil_r.
  - destruct (lookup_lt_is_Some_2 sets k) as [a Ha]; [lia|].
    destruct (lookup_lt_is_Some_2 image_ids k) as [image_id Hid]; [lia|].
    cbn [seq for_each]. rewrite (compile_step_run _ _ _ _ a image_id) by done.
    cbn. rewrite IH by lia.
    rewrite (drop_S image_ids image_id k), (drop_S sets a k) by done.
    cbn. by rewrite <-app_assoc.
Qed.

(** Six aligned lists are the six fields of one list of attribute sets. *)
Lemma assemble_sets (cats cols pats : list (string * Q))
    (sls nks lns : list (option (string * Q))) :
  length cols = length cats → length pats = length cats →
  Forall2 (λ (c : string * Q) o, gated SLEEVE_CATEGORIES c.1 o) cats sls →
  Forall2 (λ (c : string * Q) o, gated NECKLINE_CATEGORIES c.1 o) cats nks →
  Forall2 (λ (c : string * Q) o, gated LENGTH_CATEGORIES c.1 o) cats lns →
  Forall degraded cats → Forall degraded cols → Forall degraded pats →
  ∃ sets : list attribute_set,
    cats = as_category <$> sets ∧ cols = as_color <$> sets
    ∧ pats = as_pattern <$> sets ∧ sls = as_sleeve <$> sets
    ∧ nks = as_neckline <$> sets ∧ lns = as_length <$> sets
    ∧ Forall well_gated sets.
Proof.
  revert cols pats sls nks lns.
  induction cats as [|c cats IH];
    intros cols pats sls nks lns Hcols Hpats Hs Hn Hl Hdc Hdo Hdp.
  - destruct cols; [|done]. destruct pats; [|done].
    apply Forall2_nil_inv_l in Hs as ->.
    apply Forall2_nil_inv_l in Hn as ->.
    apply Forall2_nil_inv_l in Hl as ->.
    by exists [].
  - destruct cols as [|co cols]; [done|]. destruct pats as [|p pats]; [done|].
    apply Forall2_cons_inv_l in Hs as (s & sls' & Hs & Hs' & ->).
    apply Forall2_cons_inv_l in Hn as (n & nks' & Hn & Hn' & ->).
    apply Forall2_cons_inv_l in Hl as (l & lns' & Hl & Hl' & ->).
    apply Forall_cons in Hdc as [Hc Hdc].
    apply Forall_cons in Hdo as [Hco Hdo].
    apply Forall_cons in Hdp as [Hp Hdp].
    destruct (IH cols pats sls' nks' lns') as (sets & -> & -> & -> & -> & -> & -> & Hg);
      [cbn in *; lia|cbn in *; lia|done..|].
    exists ({| as_category := c; as_color := co; as_pattern := p;
               as_sleeve := s; as_neckline := n; as_length := l |} :: sets).
    split_and!; [done..|]. constructor; [|done]. by split_and!.
Qed.

Lemma categories_run (cats : list (string * Q)) :
  mapM (λ r : gmap string pyval, dict_getitem r "category") (dicts "category" cats)
  = inr ((λ lc, PStr lc.1) <$> cats).
Proof.
  unfold dicts. induction cats as [|c cats IH]; [done|].
  rewrite !fmap_cons. cbn [mapM]. rewrite IH.
  by rewrite dict_getitem_label.
Qed.

(** The extraction passes raise nothing: they yield one entry per decoded
    image, in order, each with the id of its image. *)
Lemma extract_attributes_run images image_ids lg :
  length image_ids = length images →
  ∃ sets lg',
    extract_attributes images image_ids lg
    = (inr (zip_with success_entry image_ids sets), lg')
    ∧ length sets = length images ∧ Forall well_gated sets.
Proof.
  intros Hids. unfold extract_attributes.
  destruct (extract_category_batch_run images lg) as (cats & Hcat & Hcats & Hdc).
  erewrite bind_run by exact Hcat. cbv beta.
  erewrite lift_run by apply categories_run. cbv beta.
  match goal with |- context [(extract_color_batch images ≫= _) ?l] =>
    destruct (extract_color_batch_run images l) as (cols & Hcol & Hcols & Hdo)
  end.
  erewrite bind_run by exact Hcol. cbv beta.
  match goal with |- context [(extract_pattern_batch images ≫= _) ?l] =>
    destruct (extract_pattern_batch_run images l) as (pats & Hpat & Hpats & Hdp)
  end.
  erewrite bind_run by exact Hpat. cbv beta.
  match goal with |- context [(extract_conditional_attribute _ _ _ ?lb ?v ?t ≫= _) ?l] =>
    destruct (conditional_gated images cats "sleeveLength" lb v t l)
      as (sls & lg1 & Hsl & Hgs); [lia|]
  end.
  erewrite bind_run by exact Hsl. cbv beta.
  match goal with |- context [(extract_conditional_attribute _ _ _ ?lb ?v ?t ≫= _) ?l] =>
    destruct (conditional_gated images cats "neckline" lb v t l)
      as (nks & lg2 & Hnk & Hgn); [lia|]
  end.
  erewrite bind_run by exact Hnk. cbv beta.
  match goal with |- context [(extract_conditional_attribute _ _ _ ?lb ?v ?t ≫= _) ?l] =>
    destruct (conditional_gated images cats "length" lb v t l)
      as (lns & lg3 & Hln & Hgl); [lia|]
  end.
  erewrite bind_run by exact Hln. cbv beta.
  destruct (assemble_sets cats cols pats sls nks lns)
    as (sets & -> & -> & -> & -> & -> & -> & Hg); [lia|lia|done..|].
  rewrite length_fmap in Hcats.
  exists sets, lg3. split_and!; [|done..].
  unfold lift. rewrite compile_loop_run by lia.
  by rewrite !drop_0.
Qed.

(** ** The decoding loop *)

Lemma decode_step_dict images image_ids failed_indices i d :
  decode_step (images, image_ids, failed_indices) (i, PDict d)
  = inr match item_image (PDict d) with
        | Some image =>
            (images ++ [image], image_ids ++ [item_id i (PDict d)], failed_indices)
        | None =>
            (images, image_ids, failed_indices ++ [(i, item_id i (PDict d))])
        end.
Proof. unfold decode_step. cbn. by destruct (decode_image _). Qed.

Lemma decode_step_raise st i item :
  is_dict item = false → ∃ e, decode_step st (i, item) = inl e.
Proof.
  destruct st as [[images image_ids] failed_indices].
  destruct item; try done; intros _; by eexists.
Qed.

Lemma decode_loop_run items :
  Forall (λ item, is_dict item = true) items →
  ∀ k images image_ids failed_indices,
    for_each decode_step (images, image_ids, failed_indices)
             (enumerate_from k items)
    = inr (images ++ decoded_images items,
           image_ids ++ decoded_ids k items,
           failed_indices ++ failed_items k items).
Proof.
  unfold decoded_images, decoded_ids, failed_items.
  induction 1 as [|item items Hd _ IH]; intros k images image_ids failed_indices.
  - cbn. by rewrite !app_nil_r.
  - destruct item as [| | | | | |d]; try done.
    cbn [enumerate_from for_each omap list_omap fst snd].
    rewrite decode_step_dict. cbn [mbind exc_bind].
    destruct (item_image (PDict d)) as [image|]; rewrite IH;
      by rewrite <-?app_assoc.
Qed.

Lemma decode_loop_raise items :
  Exists (λ item, is_dict item = false) items →
  ∀ k st, ∃ e, for_each decode_step st (enumerate_from k items) = inl e.
Proof.
  induction items as [|item items IH]; intros Hex k st.
  - by apply Exists_nil in Hex.
  - cbn [enumerate_from for_each].
    destruct (is_dict item) eqn:Hd.
    + apply Exists_cons in Hex as [Hex|Hex]; [congruence|].
      destruct item as [| | | | | |d]; try done.
      destruct st as [[images image_ids] failed_indices].
      rewrite decode_step_dict. cbn [mbind exc_bind]. by apply IH.
    + destruct (decode_step_raise st k item Hd) as [e ->]. by exists e.
Qed.

Lemma length_decoded_ids k items :
  length (decoded_ids k items) = length (decoded_images items).
Proof.
  unfold decoded_ids, decoded_images. revert k.
  induction items as [|item items IH]; intros k; [done|].
  cbn. destruct (item_image item); cbn; by rewrite IH.
Qed.

(** ** Putting the failed items back *)

Lemma list_insert_at_app {A : Type} (prefix rest : list A) (x : A) :
  list_insert_at (length prefix) x (prefix ++ rest) = (prefix ++ [x]) ++ rest.
Proof.
  unfold list_insert_at.
  rewrite take_app_length, drop_app_length. by rewrite <-app_assoc.
Qed.

Lemma insert_failed_run items :
  ∀ k (prefix entries : list pyval),
    length prefix = k → length entries = length (decoded_images items) →
    foldl (λ results (f : nat * pyval),
             list_insert_at f.1 (failed_entry f.2) results)
          (prefix ++ entries) (failed_items k items)
    = prefix ++ recombine k items entries.
Proof.
  unfold failed_items, decoded_images.
  induction items as [|item items IH]; intros k prefix entries Hk Hlen.
  - done.
  - cbn [enumerate_from omap list_omap recombine fst snd] in *.
    destruct (item_image item) as [image|].
    + destruct entries as [|e entries]; [done|].
      rewrite (cons_middle e prefix entries), app_assoc.
      rewrite IH; [by rewrite <-app_assoc| |].
      * rewrite length_app. cbn. lia.
      * cbn in Hlen. lia.
    + cbn [foldl fst snd]. rewrite <-Hk, list_insert_at_app.
      rewrite IH; [by rewrite <-app_assoc| |done].
      rewrite length_app. cbn. lia.
Qed.

Lemma recombine_ok items :
  ∀ k (sets : list attribute_set),
    length sets = length (decoded_images items) → Forall well_gated sets →
    Forall2 entry_ok (enumerate_from k items)
            (recombine k items (zip_with success_entry (decoded_ids k items) sets)).
Proof.
  unfold decoded_ids, decoded_images.
  induction items as [|item items IH]; intros k sets Hlen Hg.
  - destruct sets; [|done]. constructor.
  - cbn [enumerate_from omap list_omap recombine fst snd] in *.
    destruct (item_image item) as [image|] eqn:Himg.
    + destruct sets as [|a sets]; [done|].
      apply Forall_cons in Hg as [Ha Hg]. cbn [zip_with].
      constructor.
      * unfold entry_ok. cbn. rewrite Himg. by exists a.
      * apply IH; [cbn in Hlen; lia|done].
    + constructor.
      * unfold entry_ok. cbn. by rewrite Himg.
      * by apply IH.
Qed.

(** ** The handler *)

(** Once the handler has a non-empty collection of items to loop over,
    it ends in one of four ways. *)
Lemma handler_iter event input_data image_items total items t0 t1 lg :
  py_get event "input" (PDict ∅) = inr input_data →
  py_get input_data "images" (PList []) = inr image_items →
  truthy image_items = true →
  py_len image_items = inr total →
  py_iter image_items = inr items →
  (Exists (λ item, is_dict item = false) items
   ∧ ∃ e, handler event t0 t1 lg = (inr (error_response (str_exn e)), lg))
  ∨ (Forall (λ item, is_dict item = true) items
     ∧ decoded_images items = []
     ∧ handler event t0 t1 lg
       = (inr (error_response "All images failed to decode"), lg))
  ∨ (Forall (λ item, is_dict item = true) items
     ∧ decoded_images items ≠ []
     ∧ Qeq_bool (t1 - t0) 0 = true
     ∧ ∃ lg', handler event t0 t1 lg
              = (inr (error_response "float division by zero"), lg'))
  ∨ (Forall (λ item, is_dict item = true) items
     ∧ decoded_images items ≠ []
     ∧ Qeq_bool (t1 - t0) 0 = false
     ∧ ∃ sets lg',
         handler event t0 t1 lg
         = (inr (ok_response
                   (recombine 0 items
                      (zip_with success_entry (decoded_ids 0 items) sets))
                   (stats_dict total (length (decoded_images items))
                      (length (failed_items 0 items)) (t1 - t0)
                      (inject_Z (Z.of_nat (length (decoded_images items)))
                       / (t1 - t0))%Q)),
            lg')
         ∧ length sets = length (decoded_images items)
         ∧ Forall well_gated sets).
Proof.
  intros Hin Him Htr Hlen Hit.
  unfold handler, try_except, handler_body.
  erewrite lift_run by exact Hin. cbv beta.
  erewrite lift_run by exact Him. cbv beta.
  rewrite Htr. cbn [negb].
  erewrite lift_run by exact Hlen. cbv beta.
  erewrite lift_run by exact Hit. cbv beta.
  destruct (Forall_Exists_dec (λ item, is_dict item = true)
              (λ item, is_dict item = false)
              (λ item, sumbool_of_bool (is_dict item)) items)
    as [Hd|Hnd].
  2:{ left. split; [done|].
      destruct (decode_loop_raise items Hnd 0 ([], [], [])) as [e He].
      exists e. unfold enumerate. erewrite lift_raise by exact He. done. }
  right. unfold enumerate.
  erewrite lift_run by apply (decode_loop_run items Hd).
  cbn [app].
  destruct (decoded_images items) as [|image images] eqn:Himgs.
  { left. by split_and!. }
  right.
  destruct (extract_attributes_run (image :: images) (decoded_ids 0 items) lg)
    as (sets & lg' & Hrun & Hsets & Hg).
  { by rewrite length_decoded_ids, Himgs. }
  erewrite bind_run by exact Hrun. cbv beta zeta.
  unfold py_div.
  destruct (Qeq_bool (t1 - t0) 0) eqn:Hq.
  { left. split_and!; [done..|]. by exists lg'. }
  right. split_and!; [done..|].
  exists sets, lg'. split_and!; [|done..].
  pose proof (insert_failed_run items 0 []
                (zip_with success_entry (decoded_ids 0 items) sets) eq_refl)
    as Hrec.
  cbn [app] in Hrec. cbn. unfold ok_response. rewrite Hrec; [done|].
  by rewrite length_zip_with, length_decoded_ids, Himgs, Hsets, Nat.min_id.
Qed.

Lemma handler_raise event t0 t1 lg e lg' :
  handler_body event t0 t1 lg = (inl e, lg') →
  handler event t0 t1 lg = (inr (error_response (str_exn e)), lg').
Proof. intros H. unfold handler, try_except. by rewrite H. Qed.

Lemma handler_return event t0 t1 lg resp lg' :
  handler_body event t0 t1 lg = (inr resp, lg') →
  handler event t0 t1 lg = (inr resp, lg').
Proof. intros H. unfold handler, try_except. by rewrite H. Qed.

(** Every run of the handler returns one of its two response shapes. *)
Lemma handler_cases event t0 t1 lg :
  (∃ msg lg', handler event t0 t1 lg = (inr (error_response msg), lg'))
  ∨ (∃ items sets stats lg',
       handler event t0 t1 lg
       = (inr (ok_response
                 (recombine 0 items
                    (zip_with success_entry (decoded_ids 0 items) sets))
                 stats), lg')
       ∧ length sets = length (decoded_images items)
       ∧ Forall well_gated sets).
Proof.
  destruct (py_get event "input" (PDict ∅)) as [e|input_data] eqn:Hin.
  { left. exists (str_exn e), lg. apply handler_raise. unfold handler_body.
    by erewrite lift_raise. }
  destruct (py_get input_data "images" (PList [])) as [e|image_items] eqn:Him.
  { left. exists (str_exn e), lg. apply handler_raise. unfold handler_body.
    erewrite lift_run by exact Hin. by erewrite lift_raise. }
  destruct (truthy image_items) eqn:Htr.
  2:{ left. exists "No images provided", lg. apply handler_return.
      unfold handler_body. erewrite lift_run by exact Hin.
      erewrite lift_run by exact Him. by rewrite Htr. }
  destruct (py_len image_items) as [e|total] eqn:Hlen.
  { left. exists (str_exn e), lg. apply handler_raise. unfold handler_body.
    erewrite lift_run by exact Hin. erewrite lift_run by exact Him.
    rewrite Htr. cbn [negb]. by erewrite lift_raise. }
  destruct (py_iter image_items) as [e|items] eqn:Hit.
  { left. exists (str_exn e), lg. apply handler_raise. unfold handler_body.
    erewrite lift_run by exact Hin. erewrite lift_run by exact Him.
    rewrite Htr. cbn [negb]. erewrite lift_run by exact Hlen.
    by erewrite lift_raise. }
  destruct (handler_iter event input_data image_items total items t0 t1 lg
              Hin Him Htr Hlen Hit)
    as [(_ & e & H)|[(_ & _ & H)|[(_ & _ & _ & lg' & H)|(_ & _ & _ & sets & lg' & H & Hl & Hg)]]].
  - left. by exists (str_exn e), lg.
  - left. by eexists _, lg.
  - left. by eexists _, lg'.
  - right. by eexists items, sets, _, lg'.
Qed.

(** The request [{"input": {"images": items}}]. *)
Lemma handler_batch items t0 t1 lg :
  items ≠ [] →
  Forall (λ item, is_dict item = true) items →
  (decoded_images items = []
   ∧ handler (batch_event items) t0 t1 lg
     = (inr (error_response "All images failed to decode"), lg))
  ∨ (decoded_images items ≠ []
     ∧ Qeq_bool (t1 - t0) 0 = true
     ∧ ∃ lg', handler (batch_event items) t0 t1 lg
              = (inr (error_response "float division by zero"), lg'))
  ∨ (decoded_images items ≠ []
     ∧ Qeq_bool (t1 - t0) 0 = false
     ∧ ∃ sets lg',
         handler (batch_event items) t0 t1 lg
         = (inr (ok_response
                   (recombine 0 items
                      (zip_with success_entry (decoded_ids 0 items) sets))
                   (stats_dict (length items) (length (decoded_images items))
                      (length (failed_items 0 items)) (t1 - t0)
                      (inject_Z (Z.of_nat (length (decoded_images items)))
                       / (t1 - t0))%Q)),
            lg')
         ∧ length sets = length (decoded_images items)
         ∧ Forall well_gated sets).
Proof.
  intros Hne Hd.
  destruct (handler_iter (batch_event items)
              (PDict (<["images" := PList items]> ∅)) (PList items)
              (length items) items t0 t1 lg)
    as [(Hex & _)|[(_ & H)|[(_ & H)|(_ & H)]]]; try done.
  - by destruct items.
  - apply Exists_exists in Hex as (item & Hitem & Hnd).
    rewrite Forall_forall in Hd. by rewrite Hd in Hnd.
  - by left.
  - right. by left.
  - right. by right.
Qed.

(** ** Reading an entry *)

Lemma entry_dicts_lookup (a : attribute_set) :
  let attributes := (entry_dicts a).1 in
  let confidence := (entry_dicts a).2 in
  attributes !! "category" = Some (PStr (as_category a).1)
  ∧ attributes !! "color" = Some (PStr (as_color a).1)
  ∧ attributes !! "pattern" = Some (PStr (as_pattern a).1)
  ∧ attributes !! "sleeveLength" = (λ lc, PStr lc.1) <$> as_sleeve a
  ∧ attributes !! "neckline" = (λ lc, PStr lc.1) <$> as_neckline a
  ∧ attributes !! "length" = (λ lc, PStr lc.1) <$> as_length a
  ∧ attributes !! "gender" = None
  ∧ confidence !! "category" = Some (PFloat (as_category a).2)
  ∧ confidence !! "color" = Some (PFloat (as_color a).2)
  ∧ confidence !! "pattern" = Some (PFloat (as_pattern a).2)
  ∧ confidence !! "sleeveLength" = (λ lc, PFloat lc.2) <$> as_sleeve a
  ∧ confidence !! "neckline" = (λ lc, PFloat lc.2) <$> as_neckline a
  ∧ confidence !! "length" = (λ lc, PFloat lc.2) <$> as_length a
  ∧ confidence !! "gender" = None.
Proof.
  unfold entry_dicts.
  destruct (as_sleeve a), (as_neckline a), (as_length a); cbn;
    split_and!; by simplify_map_eq.
Qed.

Lemma decoded_images_nil items :
  decoded_images items = [] ↔ Forall (λ item, item_image item = None) items.
Proof.
  unfold decoded_images. induction items as [|item items IH]; cbn.
  - split; [constructor|done].
  - rewrite Forall_cons. destruct (item_image item); cbn.
    + split; [done|]. by intros [? _].
    + rewrite IH. split; [done|by intros [_ ?]].
Qed.

Lemma results_lookup items sets i item :
  length sets = length (decoded_images items) → Forall well_gated sets →
  items !! i = Some item →
  ∃ r, recombine 0 items (zip_with success_entry (decoded_ids 0 items) sets) !! i
       = Some r
       ∧ entry_ok (i, item) r.
Proof.
  intros Hlen Hg Hi.
  eapply Forall2_lookup_l; [by apply recombine_ok|].
  by rewrite enumerate_from_lookup, Hi.
Qed.

Lemma results_length items sets :
  length sets = length (decoded_images items) → Forall well_gated sets →
  length (recombine 0 items (zip_with success_entry (decoded_ids 0 items) sets))
  = length items.
Proof.
  intros Hlen Hg.
  rewrite <-(Forall2_length _ _ _ (recombine_ok items 0 sets Hlen Hg)).
  apply length_enumerate_from.
Qed.

Lemma entry_ok_id i item r :
  entry_ok (i, item) r →
  ∃ e, r = PDict e ∧ e !! "id" = Some (item_id i item)
       ∧ e !! "success" = Some (PBool (bool_decide (is_Some (item_image item)))).
Proof.
  unfold entry_ok. cbn. destruct (item_image item) as [image|].
  - intros (a & -> & _). eexists. split; [done|]. by simplify_map_eq.
  - intros ->. eexists. split; [done|]. by simplify_map_eq.
Qed.

Lemma well_gated_broken (a : attribute_set) :
  broken → well_gated a →
  a = {| as_category := ("unknown", 0%Q); as_color := ("unknown", 0%Q);
         as_pattern := ("unknown", 0%Q); as_sleeve := None;
         as_neckline := None; as_length := None |}.
Proof.
  intros Hb (Hs & Hn & Hl & Hc & Hco & Hp).
  destruct a as [c co p s n l]. cbn in *.
  rewrite (Hc Hb) in *. rewrite (Hco Hb), (Hp Hb). cbn in *.
  unfold gated in *.
  assert (s = None) as ->.
  { destruct s; [|done]. exfalso.
    assert ("unknown" ∈ SLEEVE_CATEGORIES) as Hin by (apply Hs; eauto).
    revert Hin. by apply (bool_decide_unpack _). }
  assert (n = None) as ->.
  { destruct n; [|done]. exfalso.
    assert ("unknown" ∈ NECKLINE_CATEGORIES) as Hin by (apply Hn; eauto).
    revert Hin. by apply (bool_decide_unpack _). }
  assert (l = None) as ->.
  { destruct l; [|done]. exfalso.
    assert ("unknown" ∈ LENGTH_CATEGORIES) as Hin by (apply Hl; eauto).
    revert Hin. by apply (bool_decide_unpack _). }
  reflexivity.
Qed.

(** ** The claims about the batch handler *)

(** C1, as amended.  For a batch of N items that are all objects, at least
    one of which decodes, and with a non-zero elapsed time, the response
    has exactly N result entries and the entry at position [i] carries the
    id of item [i] (the caller's, or [image_<i>]), whichever items fail to
    decode. *)
Theorem results_aligned items t0 t1 lg :
  Forall (λ item, is_dict item = true) items →
  Exists (λ item, is_Some (item_image item)) items →
  Qeq_bool (t1 - t0) 0 = false →
  ∃ results stats lg',
    handler (batch_event items) t0 t1 lg = (inr (ok_response results stats), lg')
    ∧ length results = length items
    ∧ ∀ i item, items !! i = Some item →
        ∃ e, results !! i = Some (PDict e)
             ∧ e !! "id" = Some (item_id i item).
Proof.
  intros Hd Hex Hq.
  assert (decoded_images items ≠ []) as Hne.
  { rewrite decoded_images_nil. intros Hall.
    apply Exists_exists in Hex as (item & Hin & [image Himg]).
    rewrite Forall_forall in Hall. rewrite (Hall item Hin) in Himg. done. }
  destruct (handler_batch items t0 t1 lg) as [[? _]|[(_ & ? & _)|(_ & _ & H)]];
    [by intros ->|done|done|congruence|].
  destruct H as (sets & lg' & Hrun & Hlen & Hg).
  eexists _, _, lg'. split_and!; [exact Hrun|by apply results_length|].
  intros i item Hi.
  destruct (results_lookup items sets i item Hlen Hg Hi) as (r & Hr & Hok).
  apply entry_ok_id in Hok as (e & -> & Hid & _). by exists e.
Qed.

(** C3, as amended.  When every item of a non-empty batch fails to decode,
    the handler makes no classifier call and returns the batch-level error
    [{"error": "All images failed to decode", "results": []}]; that
    response has no stats. *)
Theorem all_failed_is_batch_error items t0 t1 lg :
  items ≠ [] →
  Forall (λ item, is_dict item = true) items →
  Forall (λ item, item_image item = None) items →
  handler (batch_event items) t0 t1 lg
  = (inr (error_response "All images failed to decode"), lg).
Proof.
  intros Hne Hd Hall. apply decoded_images_nil in Hall.
  by destruct (handler_batch items t0 t1 lg Hne Hd)
    as [[_ H]|[(? & _)|(? & _)]].
Qed.

(** C6.  If the model invocation of a classifier call fails, the call
    returns exactly one [{'label': 'unknown', 'confidence': 0.0}] per image.
    The handler does not surface it: whatever the model does, a batch in
    which item [i] decodes is answered with results and stats, and item [i]
    is reported with [success] true; if the model fails on every call, its
    entry holds the placeholder for each attribute. *)
Theorem degradation_is_silent :
  (∀ images text_prompts lg e,
     clip_probs images text_prompts = inl e →
     batch_classify images text_prompts lg
     = (inr ((λ _, unknown_result) <$> images), lg ++ [(images, text_prompts)]))
  ∧ (∀ items t0 t1 lg i item image,
       Forall (λ item, is_dict item = true) items →
       Qeq_bool (t1 - t0) 0 = false →
       items !! i = Some item → item_image item = Some image →
       ∃ results stats lg' (e : gmap string pyval),
         handler (batch_event items) t0 t1 lg
         = (inr (ok_response results stats), lg')
         ∧ results !! i = Some (PDict e)
         ∧ e !! "success" = Some (PBool true)
         ∧ (broken → PDict e = unknown_entry (item_id i item))).
Proof.
  split.
  - intros images text_prompts lg e He.
    unfold batch_classify, record_call, try_except, lift, mbind, m_bind.
    by rewrite He.
  - intros items t0 t1 lg i item image Hd Hq Hi Himg.
    assert (decoded_images items ≠ []) as Hne.
    { rewrite decoded_images_nil. intros Hall.
      rewrite Forall_forall in Hall.
      rewrite (Hall item) in Himg; [done|]. by eapply list_elem_of_lookup_2. }
    destruct (handler_batch items t0 t1 lg) as [[? _]|[(_ & ? & _)|(_ & _ & H)]];
      [by intros ->|done|done|congruence|].
    destruct H as (sets & lg' & Hrun & Hlen & Hg).
    destruct (results_lookup items sets i item Hlen Hg Hi) as (r & Hr & Hok).
    unfold entry_ok in Hok. cbn in Hok.
    rewrite Himg in Hok. destruct Hok as (a & -> & Ha).
    eexists _, _, lg', _. split; [exact Hrun|]. split; [exact Hr|].
    split; [by simplify_map_eq|].
    intros Hb. by rewrite (well_gated_broken a Hb Ha).
Qed.

(** C8.  For a request without an input object, without an image list, or
    with an empty image list, the handler returns
    [{"error": "No images provided", "results": []}] and makes no classifier
    call: the log of calls is unchanged. *)
Theorem empty_batch_short_circuits (d : gmap string pyval) t0 t1 lg :
  (d !! "input" = None
   ∨ ∃ input_data : gmap string pyval,
       d !! "input" = Some (PDict input_data)
       ∧ (input_data !! "images" = None
          ∨ input_data !! "images" = Some (PList []))) →
  handler (PDict d) t0 t1 lg = (inr (error_response "No images provided"), lg).
Proof.
  intros H. apply handler_return. unfold handler_body.
  destruct H as [Hin|(input_data & Hin & Him)].
  - erewrite lift_run by (unfold py_get; by rewrite Hin). done.
  - erewrite lift_run by (unfold py_get; by rewrite Hin). cbv beta.
    erewrite lift_run by reflexivity. cbv beta.
    cbn -[lookup]. by destruct Him as [-> | ->].
Qed.

(** C10.  The handler never raises: it always returns a dictionary; and
    when the statements inside its [try] raise [e], what it returns is
    [{"error": str(e), "results": []}], with no result entry. *)
Theorem handler_never_raises event t0 t1 lg :
  ∃ d lg',
    handler event t0 t1 lg = (inr (PDict d), lg')
    ∧ match (handler_body event t0 t1 lg).1 with
      | inl e =>
          d = <["results" := PList []]> (<["error" := PStr (str_exn e)]> ∅)
      | inr response => response = PDict d
      end.
Proof.
  destruct (handler_body event t0 t1 lg) as [[e|response] lg'] eqn:Hbody.
  - eexists _, lg'. split; [by apply handler_raise|done].
  - pose proof (handler_return _ _ _ _ _ _ Hbody) as Hrun.
    destruct (handler_cases event t0 t1 lg)
      as [(msg & lg'' & H)|(items & sets & stats & lg'' & H & _)];
      rewrite Hrun in H; injection H as -> ->;
      eexists _, _; (split; [exact Hrun|done]).
Qed.

(** ** The single-image analyser *)

Lemma bind_inv {A B : Type} (m : M A) (f : A → M B) lg y lg2 :
  (m ≫= f) lg = (inr y, lg2) →
  ∃ x lg1, m lg = (inr x, lg1) ∧ f x lg1 = (inr y, lg2).
Proof.
  unfold mbind, m_bind. destruct (m lg) as [[e|x] lg1]; [done|]. by exists x, lg1.
Qed.

Lemma lift_inv {A B : Type} (c : Exc A) (f : A → M B) lg y lg2 :
  (lift c ≫= f) lg = (inr y, lg2) → ∃ x, c = inr x ∧ f x lg = (inr y, lg2).
Proof.
  intros (x & lg1 & Hc & Hf)%bind_inv. unfold lift in Hc.
  injection Hc as -> <-. by exists x.
Qed.

(** A method that scores the image and looks the winning index up in its
    vocabulary returns a member of that vocabulary. *)
Lemma labelled_inv image text_prompts key labels lg d lg' :
  (top_prompt image text_prompts ≫= labelled key labels) lg = (inr d, lg') →
  ∃ lc, d = result_dict key lc ∧ lc.1 ∈ labels.
Proof.
  intros (tc & lg1 & _ & H)%bind_inv. unfold labelled in H.
  apply lift_inv in H as (label & Hlabel & H). injection H as <- _.
  exists (label, tc.2). split; [done|].
  unfold list_getitem in Hlabel.
  destruct (labels !! tc.1) as [x|] eqn:Hx; [|done].
  injection Hlabel as ->. by eapply list_elem_of_lookup_2.
Qed.

Lemma conditional_method_inv image text_prompts key labels valid category
    lg (o : option (gmap string pyval)) lg' :
  (if negb (py_in category valid) then mret None
   else tc ← top_prompt image text_prompts;
        r ← labelled key labels tc;
        mret (Some r)) lg = (inr o, lg') →
  (is_Some o ↔ py_in category valid = true)
  ∧ ∃ slc : option (string * Q), o = result_dict key <$> slc.
Proof.
  destruct (py_in category valid); cbn [negb].
  - intros (tc & lg1 & Htop & H)%bind_inv.
    apply bind_inv in H as (r & lg2 & Hr & H). injection H as <- _.
    destruct (labelled_inv image text_prompts key labels lg r lg2)
      as (lc & -> & _).
    { by erewrite bind_run by exact Htop. }
    split; [by split; eauto|]. by exists (Some lc).
  - intros [= <- _]. split; [|by exists None].
    split; [by intros [? ?]|done].
Qed.

Lemma set_conditional_run key lc (results cd : gmap string pyval) :
  key ≠ "confidence" →
  results !! "confidence" = Some (PDict cd) →
  set_conditional key (Some (result_dict key lc)) results
  = inr (<["confidence" := PDict (<[key := PFloat lc.2]> cd)]>
           (<[key := PStr lc.1]> results)).
Proof.
  intros Hk Hcd. unfold set_conditional.
  rewrite bool_decide_false by apply insert_non_empty.
  rewrite dict_getitem_label by done. cbn [mbind exc_bind].
  assert (dict_getitem (<[key := PStr lc.1]> results) "confidence"
          = inr (PDict cd)) as ->.
  { unfold dict_getitem. by rewrite lookup_insert_ne, Hcd. }
  by rewrite dict_getitem_confidence.
Qed.

Lemma set_conditional_spec key (slc : option (string * Q))
    (results cd : gmap string pyval) :
  key ≠ "confidence" →
  results !! "confidence" = Some (PDict cd) →
  ∃ results' cd' : gmap string pyval,
    set_conditional key (result_dict key <$> slc) results = inr results'
    ∧ results' !! "confidence" = Some (PDict cd')
    ∧ results' !! key = match slc with
                        | Some lc => Some (PStr lc.1)
                        | None => results !! key
                        end
    ∧ cd' !! key = match slc with
                   | Some lc => Some (PFloat lc.2)
                   | None => cd !! key
                   end
    ∧ (∀ k, k ≠ key → k ≠ "confidence" → results' !! k = results !! k)
    ∧ (∀ k, k ≠ key → cd' !! k = cd !! k).
Proof.
  intros Hk Hcd. destruct slc as [lc|]; cbn [fmap option_fmap option_map].
  - rewrite (set_conditional_run key lc results cd Hk Hcd).
    eexists _, _. split; [done|].
    split_and!.
    + by rewrite lookup_insert_eq.
    + by rewrite lookup_insert_ne, lookup_insert_eq.
    + by rewrite lookup_insert_eq.
    + intros k ? ?. by rewrite !lookup_insert_ne.
    + intros k ?. by rewrite lookup_insert_ne.
  - exists results, cd. by split_and!.
Qed.

(** What an analysis that is returned is made of: the image is the decoded
    payload, the category is the one [extract_category] returns for it,
    and the conditional keys follow that category. *)
Lemma analyze_run_inv image_data mime_type lg r lg' :
  analyze image_data mime_type lg = (inr r, lg') →
  ∃ image (category_result : gmap string pyval) lg1
    (results confidence : gmap string pyval) (category : string),
    preprocess_image image_data mime_type = inr image
    ∧ extract_category image lg = (inr category_result, lg1)
    ∧ category_result !! "category" = Some (PStr category)
    ∧ r = PDict results
    ∧ results !! "confidence" = Some (PDict confidence)
    ∧ results !! "category" = Some (PStr category)
    ∧ (is_Some (results !! "color") ∧ is_Some (results !! "gender")
       ∧ is_Some (results !! "pattern"))
    ∧ (is_Some (confidence !! "category") ∧ is_Some (confidence !! "color")
       ∧ is_Some (confidence !! "gender") ∧ is_Some (confidence !! "pattern"))
    ∧ (is_Some (results !! "sleeveLength") ↔ category ∈ SLEEVE_CATEGORIES)
    ∧ (is_Some (confidence !! "sleeveLength") ↔ category ∈ SLEEVE_CATEGORIES)
    ∧ (is_Some (results !! "neckline") ↔ category ∈ NECKLINE_CATEGORIES)
    ∧ (is_Some (confidence !! "neckline") ↔ category ∈ NECKLINE_CATEGORIES)
    ∧ (is_Some (results !! "length") ↔ category ∈ LENGTH_CATEGORIES)
    ∧ (is_Some (confidence !! "length") ↔ category ∈ LENGTH_CATEGORIES).
Proof.
  unfold analyze.
  intros (image & Himage & H)%lift_inv.
  apply bind_inv in H as (category_result & lg1 & Hcat & H).
  destruct (labelled_inv _ _ _ _ _ _ _ Hcat) as (cat & -> & _).
  apply lift_inv in H as (category & Hc & H).
  rewrite dict_getitem_label in Hc by done. injection Hc as <-.
  apply bind_inv in H as (color_result & lg2 & Hcol & H).
  apply labelled_inv in Hcol as (col & -> & _).
  apply bind_inv in H as (gender_result & lg3 & Hgen & H).
  apply labelled_inv in Hgen as (gen & -> & _).
  apply bind_inv in H as (pattern_result & lg4 & Hpat & H).
  apply labelled_inv in Hpat as (pat & -> & _).
  apply bind_inv in H as (sleeve_result & lg5 & Hsl & H).
  apply conditional_method_inv in Hsl as (Hgs & sl & ->).
  apply bind_inv in H as (neckline_result & lg6 & Hnk & H).
  apply conditional_method_inv in Hnk as (Hgn & nk & ->).
  apply bind_inv in H as (length_result & lg7 & Hln & H).
  apply conditional_method_inv in Hln as (Hgl & ln & ->).
  rewrite py_in_str in Hgs, Hgn, Hgl.
  rewrite !dict_getitem_label in H by done.
  rewrite !dict_getitem_confidence in H.
  do 7 (apply lift_inv in H as (? & [= <-] & H)).
  match type of H with context [<["confidence" := PDict ?m]> _] => set (cd0 := m) in * end.
  match type of H with context [set_conditional _ _ ?m] => set (results0 := m) in H end.
  destruct (set_conditional_spec "sleeveLength" sl results0 cd0)
    as (results1 & cd1 & Hrun1 & Hc1 & Hr1 & Hd1 & Hro1 & Hco1); [done|done|].
  erewrite lift_run in H by exact Hrun1. cbv beta in H.
  destruct (set_conditional_spec "neckline" nk results1 cd1)
    as (results2 & cd2 & Hrun2 & Hc2 & Hr2 & Hd2 & Hro2 & Hco2); [done|done|].
  erewrite lift_run in H by exact Hrun2. cbv beta in H.
  destruct (set_conditional_spec "length" ln results2 cd2)
    as (results3 & cd3 & Hrun3 & Hc3 & Hr3 & Hd3 & Hro3 & Hco3); [done|done|].
  erewrite lift_run in H by exact Hrun3. cbv beta in H.
  injection H as <- _.
  exists image, (result_dict "category" cat), lg1, results3, cd3, cat.1.
  assert (∀ k, k ≠ "sleeveLength" → k ≠ "neckline" → k ≠ "length" →
               k ≠ "confidence" → results3 !! k = results0 !! k) as Hkeep.
  { intros k ? ? ? ?. by rewrite Hro3, Hro2, Hro1. }
  assert (∀ k, k ≠ "sleeveLength" → k ≠ "neckline" → k ≠ "length" →
               cd3 !! k = cd0 !! k) as Hckeep.
  { intros k ? ? ?. by rewrite Hco3, Hco2, Hco1. }
  split; [done|]. split; [done|]. split; [done|].
  split; [done|]. split; [done|].
  split; [by rewrite Hkeep|].
  split; [by rewrite !Hkeep|].
  split; [by rewrite !Hckeep|].
  rewrite <-Hgs, <-Hgn, <-Hgl.
  rewrite Hr3, Hd3, (Hro3 "neckline"), (Hco3 "neckline"), Hr2, Hd2 by done.
  rewrite (Hro3 "sleeveLength"), (Hco3 "sleeveLength") by done.
  rewrite (Hro2 "sleeveLength"), (Hco2 "sleeveLength"), Hr1, Hd1 by done.
  rewrite (Hro2 "length"), (Hro1 "length"), (Hco2 "length"), (Hco1 "length") by done.
  rewrite (Hro1 "neckline"), (Hco1 "neckline") by done.
  destruct sl, nk, ln; cbn; split_and!; split; (by intros [? ?]) || eauto.
Qed.

Lemma analyze_inv image_data mime_type lg r lg' :
  analyze image_data mime_type lg = (inr r, lg') →
  ∃ (results confidence : gmap string pyval) (category : string),
    r = PDict results
    ∧ results !! "confidence" = Some (PDict confidence)
    ∧ results !! "category" = Some (PStr category)
    ∧ (is_Some (results !! "color") ∧ is_Some (results !! "gender")
       ∧ is_Some (results !! "pattern"))
    ∧ (is_Some (confidence !! "category") ∧ is_Some (confidence !! "color")
       ∧ is_Some (confidence !! "gender") ∧ is_Some (confidence !! "pattern"))
    ∧ (is_Some (results !! "sleeveLength") ↔ category ∈ SLEEVE_CATEGORIES)
    ∧ (is_Some (confidence !! "sleeveLength") ↔ category ∈ SLEEVE_CATEGORIES)
    ∧ (is_Some (results !! "neckline") ↔ category ∈ NECKLINE_CATEGORIES)
    ∧ (is_Some (confidence !! "neckline") ↔ category ∈ NECKLINE_CATEGORIES)
    ∧ (is_Some (results !! "length") ↔ category ∈ LENGTH_CATEGORIES)
    ∧ (is_Some (confidence !! "length") ↔ category ∈ LENGTH_CATEGORIES).
Proof.
  intros Hrun.
  destruct (analyze_run_inv _ _ _ _ _ Hrun)
    as (_ & _ & _ & results & confidence & category & _ & _ & _ & H).
  by exists results, confidence, category.
Qed.

(** ** The claims about attribute sets *)

(** A success entry of any response of the handler. *)
Lemma handler_success_entry event t0 t1 lg (d : gmap string pyval) lg'
    (results : list pyval) i (e : gmap string pyval) :
  handler event t0 t1 lg = (inr (PDict d), lg') →
  d !! "results" = Some (PList results) →
  results !! i = Some (PDict e) →
  e !! "success" = Some (PBool true) →
  ∃ image_id a, PDict e = success_entry image_id a ∧ well_gated a.
Proof.
  intros Hrun Hres Hi Hsucc.
  destruct (handler_cases event t0 t1 lg)
    as [(msg & lg'' & H)|(items & sets & stats & lg'' & H & Hlen & Hg)];
    rewrite Hrun in H; injection H as -> ->.
  - rewrite lookup_insert_eq in Hres. injection Hres as <-. done.
  - rewrite lookup_insert_ne, lookup_insert_eq in Hres by done.
    injection Hres as <-.
    pose proof (recombine_ok items 0 sets Hlen Hg) as Hall.
    destruct (Forall2_lookup_r _ _ _ _ _ Hall Hi) as ([j item] & _ & Hok).
    unfold entry_ok in Hok. cbn in Hok.
    destruct (item_image item).
    + destruct Hok as (a & -> & Ha). by eexists _, a.
    + injection Hok as ->. by simplify_map_eq.
Qed.

(** The extraction passes once more, keeping the category pass in view:
    the categories of the entries are the ones [extract_category_batch]
    returns for the decoded images. *)
Lemma extract_attributes_categories images image_ids lg :
  length image_ids = length images →
  ∃ sets lg1 lg',
    extract_category_batch images lg
    = (inr (dicts "category" (as_category <$> sets)), lg1)
    ∧ extract_attributes images image_ids lg
      = (inr (zip_with success_entry image_ids sets), lg')
    ∧ length sets = length images ∧ Forall well_gated sets.
Proof.
  intros Hids. unfold extract_attributes.
  destruct (extract_category_batch_run images lg) as (cats & Hcat & Hcats & Hdc).
  erewrite bind_run by exact Hcat. cbv beta.
  erewrite lift_run by apply categories_run. cbv beta.
  match goal with |- context [(extract_color_batch images ≫= _) ?l] =>
    destruct (extract_color_batch_run images l) as (cols & Hcol & Hcols & Hdo)
  end.
  erewrite bind_run by exact Hcol. cbv beta.
  match goal with |- context [(extract_pattern_batch images ≫= _) ?l] =>
    destruct (extract_pattern_batch_run images l) as (pats & Hpat & Hpats & Hdp)
  end.
  erewrite bind_run by exact Hpat. cbv beta.
  match goal with |- context [(extract_conditional_attribute _ _ _ ?lb ?v ?t ≫= _) ?l] =>
    destruct (conditional_gated images cats "sleeveLength" lb v t l)
      as (sls & lg2 & Hsl & Hgs); [lia|]
  end.
  erewrite bind_run by exact Hsl. cbv beta.
  match goal with |- context [(extract_conditional_attribute _ _ _ ?lb ?v ?t ≫= _) ?l] =>
    destruct (conditional_gated images cats "neckline" lb v t l)
      as (nks & lg3 & Hnk & Hgn); [lia|]
  end.
  erewrite bind_run by exact Hnk. cbv beta.
  match goal with |- context [(extract_conditional_attribute _ _ _ ?lb ?v ?t ≫= _) ?l] =>
    destruct (conditional_gated images cats "length" lb v t l)
      as (lns & lg4 & Hln & Hgl); [lia|]
  end.
  erewrite bind_run by exact Hln. cbv beta.
  destruct (assemble_sets cats cols pats sls nks lns)
    as (sets & -> & -> & -> & -> & -> & -> & Hg); [lia|lia|done..|].
  rewrite length_fmap in Hcats.
  exists sets. eexists _, lg4. split_and!; [exact Hcat| |done..].
  unfold lift. rewrite compile_loop_run by lia.
  by rewrite !drop_0.
Qed.

(** A batch that is answered with results, with the category pass that
    produced the categories of its entries. *)
Lemma handler_batch_categories items t0 t1 lg :
  Forall (λ item, is_dict item = true) items →
  decoded_images items ≠ [] →
  Qeq_bool (t1 - t0) 0 = false →
  ∃ sets stats lg1 lg',
    extract_category_batch (decoded_images items) lg
    = (inr (dicts "category" (as_category <$> sets)), lg1)
    ∧ handler (batch_event items) t0 t1 lg
      = (inr (ok_response
                (recombine 0 items
                   (zip_with success_entry (decoded_ids 0 items) sets))
                stats), lg')
    ∧ length sets = length (decoded_images items)
    ∧ Forall well_gated sets.
Proof.
  intros Hd Hne Hq.
  unfold handler, try_except, handler_body.
  rewrite (lift_run _ _ _ (PDict (<["images" := PList items]> ∅))) by reflexivity.
  rewrite (lift_run _ _ _ (PList items)) by reflexivity.
  assert (truthy (PList items) = true) as ->
    by (destruct items; [by destruct Hne|done]).
  cbn [negb].
  rewrite (lift_run _ _ _ (length items)) by reflexivity.
  rewrite (lift_run _ _ _ items) by reflexivity.
  unfold enumerate.
  erewrite lift_run by apply (decode_loop_run items Hd). cbn [app].
  destruct (extract_attributes_categories (decoded_images items)
              (decoded_ids 0 items) lg)
    as (sets & lg1 & lg' & Hcat & Hrun & Hsets & Hg).
  { apply length_decoded_ids. }
  destruct (decoded_images items) as [|image images] eqn:Himgs; [done|].
  erewrite bind_run by exact Hrun. cbv beta zeta.
  unfold py_div. rewrite Hq.
  exists sets. eexists _, lg1, lg'. split_and!; [exact Hcat| |done..].
  pose proof (insert_failed_run items 0 []
                (zip_with success_entry (decoded_ids 0 items) sets) eq_refl)
    as Hrec.
  cbn [app] in Hrec. cbn. unfold ok_response. rewrite Hrec; [done|].
  by rewrite length_zip_with, length_decoded_ids, Himgs, Hsets, Nat.min_id.
Qed.

(** The image of an item that decodes sits at the item's [decoded_index]
    among the decoded images, and its entry is built from the attribute
    set at that position. *)
Lemma decoded_images_lookup items i item image :
  items !! i = Some item → item_image item = Some image →
  decoded_images items !! decoded_index i items = Some image.
Proof.
  unfold decoded_index, decoded_images. revert i.
  induction items as [|item0 items IH]; intros i Hi Himg; [done|].
  destruct i as [|i]; cbn in Hi.
  - injection Hi as ->. cbn. by rewrite Himg.
  - cbn. destruct (item_image item0); cbn; by apply IH.
Qed.

Lemma recombine_lookup items :
  ∀ k (sets : list attribute_set) i item image a,
    items !! i = Some item → item_image item = Some image →
    sets !! decoded_index i items = Some a →
    recombine k items (zip_with success_entry (decoded_ids k items) sets) !! i
    = Some (success_entry (item_id (k + i) item) a).
Proof.
  unfold decoded_index, decoded_ids, decoded_images.
  induction items as [|item0 items IH]; intros k sets i item image a Hi Himg Ha;
    [done|].
  cbn [enumerate_from omap list_omap recombine fst snd].
  destruct i as [|i]; cbn in Hi.
  - injection Hi as ->. cbn in Ha. rewrite Himg.
    destruct sets as [|a0 sets]; [done|]. injection Ha as ->.
    cbn. by rewrite Nat.add_0_r.
  - cbn in Ha. destruct (item_image item0) as [image0|].
    + destruct sets as [|a0 sets]; [done|]. cbn in Ha. cbn.
      rewrite <-Nat.add_succ_comm. by eapply IH.
    + cbn. rewrite <-Nat.add_succ_comm. by eapply IH.
Qed.

(** C4.  In a batch of objects answered with results, every item that
    decodes has a success entry at its position; the category of that entry
    is the label [extract_category_batch] returns for the item's image, and
    each of [sleeveLength], [neckline] and [length] is a key of the entry's
    attributes exactly when that category is one of the attribute's valid
    categories, and a key of its confidence mapping exactly then too.  No
    response of the handler has a success entry of another kind.  The
    single-image analyser does the same with the category [extract_category]
    returns for the decoded image. *)
Theorem conditional_attributes_gated :
  (∀ items t0 t1 lg i item image,
     Forall (λ item, is_dict item = true) items →
     Qeq_bool (t1 - t0) 0 = false →
     items !! i = Some item → item_image item = Some image →
     ∃ (category_results : list (gmap string pyval)) lg1
       (category_result : gmap string pyval) (category : string)
       results stats lg' (e attributes confidence : gmap string pyval),
       decoded_images items !! decoded_index i items = Some image
       ∧ extract_category_batch (decoded_images items) lg
         = (inr category_results, lg1)
       ∧ category_results !! decoded_index i items = Some category_result
       ∧ category_result !! "category" = Some (PStr category)
       ∧ handler (batch_event items) t0 t1 lg
         = (inr (ok_response results stats), lg')
       ∧ results !! i = Some (PDict e)
       ∧ e !! "success" = Some (PBool true)
       ∧ e !! "attributes" = Some (PDict attributes)
       ∧ e !! "confidence" = Some (PDict confidence)
       ∧ attributes !! "category" = Some (PStr category)
       ∧ gating_holds attributes confidence category)
  ∧ (∀ event t0 t1 lg (d : gmap string pyval) lg' (results : list pyval) i
       (e : gmap string pyval),
       handler event t0 t1 lg = (inr (PDict d), lg') →
       d !! "results" = Some (PList results) →
       results !! i = Some (PDict e) →
       e !! "success" = Some (PBool true) →
       ∃ (attributes confidence : gmap string pyval) (category : string),
         e !! "attributes" = Some (PDict attributes)
         ∧ e !! "confidence" = Some (PDict confidence)
         ∧ attributes !! "category" = Some (PStr category)
         ∧ gating_holds attributes confidence category)
  ∧ (∀ image_data mime_type lg r lg',
       analyze image_data mime_type lg = (inr r, lg') →
       ∃ image (category_result : gmap string pyval) lg1
         (results confidence : gmap string pyval) (category : string),
         preprocess_image image_data mime_type = inr image
         ∧ extract_category image lg = (inr category_result, lg1)
         ∧ category_result !! "category" = Some (PStr category)
         ∧ r = PDict results
         ∧ results !! "confidence" = Some (PDict confidence)
         ∧ results !! "category" = Some (PStr category)
         ∧ gating_holds results confidence category).
Proof.
  assert (∀ a, well_gated a →
               gating_holds (entry_dicts a).1 (entry_dicts a).2 (as_category a).1)
    as Hgate.
  { intros a (Hs & Hn & Hl & _).
    destruct (entry_dicts_lookup a)
      as (_ & _ & _ & Hs1 & Hn1 & Hl1 & _ & _ & _ & _ & Hs2 & Hn2 & Hl2 & _).
    unfold gating_holds, gated in *.
    rewrite Hs1, Hs2, Hn1, Hn2, Hl1, Hl2, !fmap_is_Some. by split_and!. }
  split_and!.
  - intros items t0 t1 lg i item image Hd Hq Hi Himg.
    pose proof (decoded_images_lookup items i item image Hi Himg) as Hk.
    destruct (handler_batch_categories items t0 t1 lg Hd)
      as (sets & stats & lg1 & lg' & Hcat & Hrun & Hlen & Hg); [|done|].
    { intros Hnil. by rewrite Hnil in Hk. }
    destruct (lookup_lt_is_Some_2 sets (decoded_index i items)) as [a Ha].
    { rewrite Hlen. by eapply lookup_lt_Some. }
    exists (dicts "category" (as_category <$> sets)), lg1,
      (result_dict "category" (as_category a)), (as_category a).1.
    eexists _, stats, lg', _, (entry_dicts a).1, (entry_dicts a).2.
    split; [exact Hk|]. split; [exact Hcat|].
    split. { unfold dicts. by rewrite !list_lookup_fmap, Ha. }
    split; [done|]. split; [exact Hrun|].
    split. { by rewrite (recombine_lookup items 0 sets i item image a). }
    split; [done|]. split; [done|]. split; [done|].
    split; [apply entry_dicts_lookup|].
    apply Hgate. by eapply Forall_lookup_1.
  - intros event t0 t1 lg d lg' results i e Hrun Hres Hi Hsucc.
    destruct (handler_success_entry _ _ _ _ _ _ _ _ _ Hrun Hres Hi Hsucc)
      as (image_id & a & [= ->] & Ha).
    eexists _, _, (as_category a).1.
    split; [by simplify_map_eq|]. split; [by simplify_map_eq|].
    split; [apply entry_dicts_lookup|]. by apply Hgate.
  - intros image_data mime_type lg r lg' Hrun.
    destruct (analyze_run_inv _ _ _ _ _ Hrun)
      as (image & category_result & lg1 & results & confidence & category
          & Himage & Hcat & Hcr & -> & Hc & Hcategory & _ & _ & Hg).
    by exists image, category_result, lg1, results, confidence, category.
Qed.

(** C5, as amended.  The single-image analyser returns a gender entry and
    a gender confidence for every image it analyses, whatever the
    category, alongside category, color and pattern; the batch handler
    extracts no gender: its success entries have category, color and
    pattern entries, with their confidences, and no gender key. *)
Theorem gender_only_in_single_image_path :
  (∀ image_data mime_type lg r lg',
     analyze image_data mime_type lg = (inr r, lg') →
     ∃ results confidence : gmap string pyval,
       r = PDict results
       ∧ results !! "confidence" = Some (PDict confidence)
       ∧ (is_Some (results !! "category") ∧ is_Some (results !! "color")
          ∧ is_Some (results !! "gender") ∧ is_Some (results !! "pattern"))
       ∧ (is_Some (confidence !! "category") ∧ is_Some (confidence !! "color")
          ∧ is_Some (confidence !! "gender") ∧ is_Some (confidence !! "pattern")))
  ∧ (∀ event t0 t1 lg (d : gmap string pyval) lg' (results : list pyval) i
       (e : gmap string pyval),
       handler event t0 t1 lg = (inr (PDict d), lg') →
       d !! "results" = Some (PList results) →
       results !! i = Some (PDict e) →
       e !! "success" = Some (PBool true) →
       ∃ attributes confidence : gmap string pyval,
         e !! "attributes" = Some (PDict attributes)
         ∧ e !! "confidence" = Some (PDict confidence)
         ∧ (is_Some (attributes !! "category") ∧ is_Some (attributes !! "color")
            ∧ is_Some (attributes !! "pattern") ∧ attributes !! "gender" = None)
         ∧ (is_Some (confidence !! "category") ∧ is_Some (confidence !! "color")
            ∧ is_Some (confidence !! "pattern") ∧ confidence !! "gender" = None)).
Proof.
  split.
  - intros image_data mime_type lg r lg' Hrun.
    destruct (analyze_inv _ _ _ _ _ Hrun)
      as (results & confidence & category & -> & Hc & Hcat & Hr & Hco & _).
    exists results, confidence.
    split_and!; try done; try apply Hr; try apply Hco; by rewrite Hcat.
  - intros event t0 t1 lg d lg' results i e Hrun Hres Hi Hsucc.
    destruct (handler_success_entry _ _ _ _ _ _ _ _ _ Hrun Hres Hi Hsucc)
      as (image_id & a & [= ->] & _).
    destruct (entry_dicts_lookup a)
      as (Hc & Hco & Hp & _ & _ & _ & Hg & Hc' & Hco' & Hp' & _ & _ & _ & Hg').
    eexists _, _.
    split; [by simplify_map_eq|]. split; [by simplify_map_eq|].
    rewrite Hc, Hco, Hp, Hc', Hco', Hp'. by split_and!.
Qed.

(** C7, as amended.  When a payload does not decode, [decode_image]
    returns [None], without a cause, and [preprocess_image] raises a
    [ValueError] whose message carries the cause; the batch handler turns
    the failure of an item into the per-item entry [{'id': id,
    'success': False, 'error': 'Failed to decode image'}] at the item's
    position, provided some item of the batch decodes. *)
Theorem decode_failure_is_per_item :
  (∀ image_data mime_type e,
     open_payload image_data = inl e →
     decode_image image_data = None
     ∧ preprocess_image image_data mime_type
       = inl (ValueError ("Failed to preprocess image: " +:+ str_exn e)))
  ∧ (∀ items t0 t1 lg i item,
       Forall (λ item, is_dict item = true) items →
       Exists (λ item, is_Some (item_image item)) items →
       Qeq_bool (t1 - t0) 0 = false →
       items !! i = Some item → item_image item = None →
       ∃ results stats lg',
         handler (batch_event items) t0 t1 lg
         = (inr (ok_response results stats), lg')
         ∧ results !! i = Some (failed_entry (item_id i item))).
Proof.
  split.
  - intros image_data mime_type e He.
    unfold decode_image, preprocess_image. by rewrite He.
  - intros items t0 t1 lg i item Hd Hex Hq Hi Himg.
    assert (decoded_images items ≠ []) as Hne.
    { rewrite decoded_images_nil. intros Hall.
      apply Exists_exists in Hex as (item' & Hin & [image Himg']).
      rewrite Forall_forall in Hall. by rewrite (Hall item' Hin) in Himg'. }
    destruct (handler_batch items t0 t1 lg) as [[? _]|[(_ & ? & _)|(_ & _ & H)]];
      [by intros ->|done|done|congruence|].
    destruct H as (sets & lg' & Hrun & Hlen & Hg).
    eexists _, _, lg'. split; [exact Hrun|].
    destruct (results_lookup items sets i item Hlen Hg Hi) as (r & Hr & Hok).
    unfold entry_ok in Hok. cbn in Hok. rewrite Himg in Hok. by rewrite Hr, Hok.
Qed.

Lemma valid_indices_nil categories valid_categories :
  valid_indices_of categories valid_categories = []
  ↔ Forall (λ cat, py_in cat valid_categories = false) categories.
Proof.
  rewrite Forall_lookup. split.
  - intros Hnil i cat Hcat.
    destruct (py_in cat valid_categories) eqn:Hin; [|done].
    assert (i ∈ valid_indices_of categories valid_categories) as Hi
      by (apply elem_of_valid_indices; eauto).
    rewrite Hnil in Hi. by apply elem_of_nil in Hi.
  - intros Hall.
    destruct (valid_indices_of categories valid_categories) as [|j vi] eqn:Hvi;
      [done|].
    assert (j ∈ valid_indices_of categories valid_categories) as Hj
      by (rewrite Hvi; left).
    apply elem_of_valid_indices in Hj as (cat & Hcat & Hin).
    by rewrite (Hall j cat Hcat) in Hin.
Qed.

(** C9.  For images and categories aligned with them: if no category is a
    valid one, [extract_conditional_attribute] returns [None] for every
    image and makes no classifier call; otherwise it makes one classifier
    call, on the images whose category is valid, and result [k] of that call
    is stored, under the attribute's name, at the index of the [k]-th valid
    image, with [None] at every other position. *)
Theorem conditional_extractor_scatters images categories attribute_name
    labels valid_categories prompt_template lg :
  length categories = length images →
  plain_template prompt_template = true →
  let valid_indices := valid_indices_of categories valid_categories in
  let text_prompts := format_label prompt_template <$> labels in
  (∀ i, i ∈ valid_indices
        ↔ ∃ cat, categories !! i = Some cat ∧ py_in cat valid_categories = true)
  ∧ (Forall (λ cat, py_in cat valid_categories = false) categories →
     extract_conditional_attribute images categories attribute_name labels
       valid_categories prompt_template lg
     = (inr (replicate (length images) None), lg))
  ∧ (Exists (λ cat, py_in cat valid_categories = true) categories →
     ∃ valid_images results full,
       length valid_images = length valid_indices
       ∧ (∀ k i, valid_indices !! k = Some i → valid_images !! k = images !! i)
       ∧ batch_classify valid_images text_prompts lg
         = (inr results, lg ++ [(valid_images, text_prompts)])
       ∧ extract_conditional_attribute images categories attribute_name labels
           valid_categories prompt_template lg
         = (inr full, lg ++ [(valid_images, text_prompts)])
       ∧ length full = length images
       ∧ (∀ k i, valid_indices !! k = Some i →
            ∃ (r : gmap string pyval) label confidence,
              results !! k = Some r
              ∧ r !! "label" = Some label
              ∧ r !! "confidence" = Some confidence
              ∧ full !! i
                = Some (Some (<["confidence" := confidence]>
                                (<[attribute_name := label]> ∅))))
       ∧ (∀ i, i < length images → i ∉ valid_indices → full !! i = Some None)).
Proof.
  intros Hlen _ vi text_prompts.
  destruct (conditional_run images categories attribute_name labels
              valid_categories prompt_template lg Hlen)
    as (sls & valid_images & lcs & Hsel & Hcls & Hlcs & _ & Hsl & Hout & Hin & Hrun).
  fold vi in Hsel, Hlcs, Hout, Hin, Hrun. fold text_prompts in Hcls, Hrun.
  split; [intros i; apply elem_of_valid_indices|]. split.
  - intros Hall. apply valid_indices_nil in Hall. fold vi in Hall.
    rewrite Hall in *. rewrite Hrun. f_equal. f_equal.
    apply list_eq. intros i. unfold option_dicts. rewrite list_lookup_fmap.
    destruct (decide (i < length images)) as [Hi|Hi].
    + rewrite Hout, lookup_replicate_2 by (done || apply not_elem_of_nil). done.
    + rewrite !lookup_ge_None_2 by (rewrite ?length_replicate; lia). done.
  - intros Hex.
    assert (vi ≠ []) as Hne.
    { intros Hnil%valid_indices_nil. apply Exists_exists in Hex as (cat & Hc & Hin').
      rewrite Forall_forall in Hnil. by rewrite (Hnil cat Hc) in Hin'. }
    exists valid_images, (dicts "label" lcs), (option_dicts attribute_name sls).
    apply mapM_exc_inv in Hsel.
    split_and!.
    + symmetry. by eapply Forall2_length.
    + intros k i Hk.
      destruct (Forall2_lookup_l _ _ _ _ _ Hsel Hk) as (x & -> & Hx).
      unfold list_getitem in Hx.
      destruct (images !! i); [by injection Hx as ->|done].
    + done.
    + rewrite Hrun. by destruct vi.
    + unfold option_dicts. by rewrite length_fmap.
    + intros k i Hk.
      destruct (lookup_lt_is_Some_2 lcs k) as [lc Hlc].
      { rewrite Hlcs. by apply lookup_lt_Some in Hk. }
      exists (result_dict "label" lc), (PStr lc.1), (PFloat lc.2).
      unfold dicts, option_dicts. rewrite !list_lookup_fmap, Hlc, (Hin k i Hk), Hlc.
      split_and!; [done|by simplify_map_eq|by simplify_map_eq|done].
    + intros i Hi Hnot. unfold option_dicts.
      by rewrite list_lookup_fmap, Hout.
Qed.

(** ** The label a classification returns *)

Lemma classify_row_label text_prompts probs i d :
  classify_row text_prompts probs i = inr d →
  ∃ prompt label confidence,
    prompt ∈ text_prompts ∧ list_last (split prompt) = inr label
    ∧ d = result_dict "label" (label, confidence).
Proof.
  unfold classify_row.
  destruct (list_getitem probs i) as [|row]; [done|]. cbn.
  destruct (argmax row) as [|top_idx]; [done|]. cbn.
  destruct (list_getitem row top_idx) as [|confidence]; [done|]. cbn.
  destruct (list_getitem text_prompts top_idx) as [|prompt] eqn:Hp; [done|]. cbn.
  destruct (list_last (split prompt)) as [|label] eqn:Hl; [done|]. cbn.
  intros [= <-]. exists prompt, label, confidence. split_and!; [|done..].
  unfold list_getitem in Hp.
  destruct (text_prompts !! top_idx) eqn:Hx; [|done].
  injection Hp as ->. by eapply list_elem_of_lookup_2.
Qed.

(** Every label [batch_classify] returns is the last word of one of the
    prompts, or the placeholder. *)
Lemma batch_classify_labels (P : string → Prop) images text_prompts lg :
  (∀ prompt label, prompt ∈ text_prompts →
                   list_last (split prompt) = inr label → P label) →
  P "unknown" →
  ∃ lcs,
    batch_classify images text_prompts lg
    = (inr (dicts "label" lcs), lg ++ [(images, text_prompts)])
    ∧ Forall (λ lc : string * Q, P lc.1) lcs.
Proof.
  intros Hlast Hunknown.
  unfold batch_classify, record_call, try_except, lift, mbind, m_bind.
  destruct (clip_probs images text_prompts) as [e|probs] eqn:Hp; cbn.
  { exists ((λ _, ("unknown", 0%Q)) <$> images). unfold dicts. split.
    - by rewrite <-list_fmap_compose.
    - by apply Forall_fmap, Forall_true. }
  destruct (mapM _ _) as [e|rs] eqn:Hrs; cbn.
  { exists ((λ _, ("unknown", 0%Q)) <$> images). unfold dicts. split.
    - by rewrite <-list_fmap_compose.
    - by apply Forall_fmap, Forall_true. }
  apply mapM_exc_inv in Hrs.
  destruct (fmap_preimage (result_dict "label") (λ lc : string * Q, P lc.1) rs)
    as (lcs & -> & Hlcs).
  { eapply Forall2_Forall_r; [exact Hrs|]. apply Forall_true.
    intros i d Hd.
    apply classify_row_label in Hd as (prompt & label & confidence & Hin & Hl & ->).
    exists (label, confidence). split; [done|]. by eapply Hlast. }
  by exists lcs.
Qed.

Lemma color_prompts_last_word :
  Forall (λ prompt, list_last (split prompt) = inr "clothing")
         ((λ color, color +:+ " clothing") <$> COLOR_LABELS).
Proof. repeat constructor. Qed.

Lemma category_prompts_last_word :
  Forall2 (λ prompt category, list_last (split prompt) = inr category)
          ((λ category, "a photo of a " +:+ category) <$> CATEGORY_LABELS)
          CATEGORY_LABELS.
Proof. repeat constructor. Qed.

(** The part of C2 that holds: a category the batch handler extracts is
    a member of the category vocabulary, or the placeholder. *)
Lemma batch_category_in_vocabulary images lg :
  ∃ lcs lg',
    extract_category_batch images lg = (inr (dicts "category" lcs), lg')
    ∧ Forall (λ lc : string * Q, lc.1 ∈ CATEGORY_LABELS ∨ lc.1 = "unknown") lcs.
Proof.
  unfold extract_category_batch.
  destruct (batch_classify_labels
              (λ label, label ∈ CATEGORY_LABELS ∨ label = "unknown") images
              ((λ category, "a photo of a " +:+ category) <$> CATEGORY_LABELS) lg)
    as (lcs & Hrun & Hl).
  { intros prompt label Hin Hlast. left.
    apply list_elem_of_lookup in Hin as [k Hk].
    destruct (Forall2_lookup_l _ _ _ _ _ category_prompts_last_word Hk)
      as (category & Hc & Hlast').
    rewrite Hlast in Hlast'. injection Hlast' as ->.
    by eapply list_elem_of_lookup_2. }
  { by right. }
  exists lcs. eexists. split; [|done].
  erewrite bind_run by exact Hrun. unfold lift. by rewrite rekey_run.
Qed.

(** The defect behind C2: whatever the model answers, the color the batch
    handler extracts is the word [clothing], or the placeholder, and so
    never a member of the color vocabulary. *)
Lemma batch_color_not_in_vocabulary images lg :
  ∃ lcs lg',
    extract_color_batch images lg = (inr (dicts "color" lcs), lg')
    ∧ Forall (λ lc : string * Q,
                (lc.1 = "clothing" ∨ lc.1 = "unknown") ∧ lc.1 ∉ COLOR_LABELS)
             lcs.
Proof.
  unfold extract_color_batch.
  destruct (batch_classify_labels
              (λ label, (label = "clothing" ∨ label = "unknown")
                        ∧ label ∉ COLOR_LABELS) images
              ((λ color, color +:+ " clothing") <$> COLOR_LABELS) lg)
    as (lcs & Hrun & Hl).
  { intros prompt label Hin Hlast.
    pose proof color_prompts_last_word as Hall.
    rewrite Forall_forall in Hall. rewrite (Hall prompt Hin) in Hlast.
    injection Hlast as <-. split; [by left|].
    by apply (bool_decide_unpack _). }
  { split; [by right|]. by apply (bool_decide_unpack _). }
  exists lcs. eexists. split; [|done].
  erewrite bind_run by exact Hrun. unfold lift. by rewrite rekey_run.
Qed.

(** ** Further properties of the batch handler *)

Lemma decode_loop_raise_first items :
  Exists (λ item, is_dict item = false) items →
  ∀ k st,
    ∃ item, item ∈ items ∧ is_dict item = false
            ∧ for_each decode_step st (enumerate_from k items)
              = inl (AttributeError
                       ("'" +:+ type_name item +:+ "' object has no attribute 'get'")).
Proof.
  induction items as [|item items IH]; intros Hex k st.
  - by apply Exists_nil in Hex.
  - cbn [enumerate_from for_each].
    destruct (is_dict item) eqn:Hd.
    + apply Exists_cons in Hex as [Hex|Hex]; [congruence|].
      destruct item as [| | | | | |d]; try done.
      destruct st as [[images image_ids] failed_indices].
      rewrite decode_step_dict. cbn [mbind exc_bind].
      destruct (IH Hex (S k)
                  match item_image (PDict d) with
                  | Some image =>
                      (images ++ [image], image_ids ++ [item_id k (PDict d)],
                       failed_indices)
                  | None =>
                      (images, image_ids,
                       failed_indices ++ [(k, item_id k (PDict d))])
                  end) as (bad & Hin & Hbad & Hrun).
      exists bad. split_and!; [by right|done|done].
    + exists item. split_and!; [by left|done|].
      destruct st as [[images image_ids] failed_indices].
      by destruct item.
Qed.

Lemma length_decoded_failed k items :
  length (decoded_images items) + length (failed_items k items) = length items.
Proof.
  unfold decoded_images, failed_items. revert k.
  induction items as [|item items IH]; intros k; [done|].
  cbn. destruct (item_image item); cbn; rewrite <-(IH (S k)); lia.
Qed.

Lemma is_success_success_entry image_id a :
  is_success (success_entry image_id a) = true.
Proof. unfold is_success, response_field, success_entry. by simplify_map_eq. Qed.

Lemma is_success_failed_entry image_id :
  is_success (failed_entry image_id) = false.
Proof. unfold is_success, response_field, failed_entry. by simplify_map_eq. Qed.

Lemma count_success_entries items :
  ∀ k (sets : list attribute_set),
    length sets = length (decoded_images items) →
    let results :=
      recombine k items (zip_with success_entry (decoded_ids k items) sets) in
    length (List.filter is_success results) = length (decoded_images items)
    ∧ length (List.filter (λ r, negb (is_success r)) results)
      = length (failed_items k items).
Proof.
  unfold decoded_ids, decoded_images, failed_items.
  induction items as [|item items IH]; intros k sets Hlen.
  - by destruct sets.
  - cbn [enumerate_from omap list_omap recombine fst snd] in *.
    destruct (item_image item) as [image|] eqn:Himg.
    + destruct sets as [|a sets]; [done|]. cbn [zip_with].
      destruct (IH (S k) sets) as [Hs Hf]; [cbn in Hlen; lia|].
      cbn zeta in Hs, Hf. cbn zeta. cbn [List.filter].
      rewrite is_success_success_entry. cbn [negb length].
      by rewrite Hs, Hf.
    + destruct (IH (S k) sets Hlen) as [Hs Hf].
      cbn zeta in Hs, Hf. cbn zeta. cbn [List.filter].
      rewrite is_success_failed_entry. cbn [negb length].
      by rewrite Hs, Hf.
Qed.

(** Every run of the handler, with what its stats are when it has some. *)
Lemma handler_cases_stats event t0 t1 lg :
  (∃ msg lg', handler event t0 t1 lg = (inr (error_response msg), lg'))
  ∨ (∃ items sets lg',
       handler event t0 t1 lg
       = (inr (ok_response
                 (recombine 0 items
                    (zip_with success_entry (decoded_ids 0 items) sets))
                 (stats_dict (length items) (length (decoded_images items))
                    (length (failed_items 0 items)) (t1 - t0)
                    (inject_Z (Z.of_nat (length (decoded_images items)))
                     / (t1 - t0))%Q)),
          lg')
       ∧ Forall (λ item, is_dict item = true) items
       ∧ decoded_images items ≠ []
       ∧ Qeq_bool (t1 - t0) 0 = false
       ∧ length sets = length (decoded_images items)
       ∧ Forall well_gated sets).
Proof.
  destruct (py_get event "input" (PDict ∅)) as [e|input_data] eqn:Hin.
  { left. exists (str_exn e), lg. apply handler_raise. unfold handler_body.
    by erewrite lift_raise. }
  destruct (py_get input_data "images" (PList [])) as [e|image_items] eqn:Him.
  { left. exists (str_exn e), lg. apply handler_raise. unfold handler_body.
    erewrite lift_run by exact Hin. by erewrite lift_raise. }
  destruct (truthy image_items) eqn:Htr.
  2:{ left. exists "No images provided", lg. apply handler_return.
      unfold handler_body. erewrite lift_run by exact Hin.
      erewrite lift_run by exact Him. by rewrite Htr. }
  destruct (py_len image_items) as [e|total] eqn:Hlen.
  { left. exists (str_exn e), lg. apply handler_raise. unfold handler_body.
    erewrite lift_run by exact Hin. erewrite lift_run by exact Him.
    rewrite Htr. cbn [negb]. by erewrite lift_raise. }
  destruct (py_iter image_items) as [e|items] eqn:Hit.
  { left. exists (str_exn e), lg. apply handler_raise. unfold handler_body.
    erewrite lift_run by exact Hin. erewrite lift_run by exact Him.
    rewrite Htr. cbn [negb]. erewrite lift_run by exact Hlen.
    by erewrite lift_raise. }
  destruct (handler_iter event input_data image_items total items t0 t1 lg
              Hin Him Htr Hlen Hit)
    as [(_ & e & H)|[(_ & _ & H)|[(_ & _ & _ & lg' & H)
                                 |(Hd & Hne & Hq & sets & lg' & H & Hl & Hg)]]].
  - left. by exists (str_exn e), lg.
  - left. by eexists _, lg.
  - left. by eexists _, lg'.
  - right. exists items, sets, lg'. split_and!; [|done..].
    rewrite H.
    assert (total = length items) as ->; [|done].
    destruct image_items as [| | | |s|l|d]; try done.
    + exfalso. cbn in Hit. injection Hit as <-.
      destruct (String.list_ascii_of_string s) as [|c cs]; [by destruct Hne|].
      by apply Forall_cons in Hd as [? _].
    + cbn in Hit, Hlen. injection Hit as <-. by injection Hlen as <-.
    + exfalso. cbn in Hit. injection Hit as <-.
      destruct (map_to_list d) as [|kv kvs]; [by destruct Hne|].
      by apply Forall_cons in Hd as [? _].
Qed.


Lemma exists_decoded items :
  Exists (λ item, is_Some (item_image item)) items → decoded_images items ≠ [].
Proof.
  intros Hex. rewrite decoded_images_nil. intros Hall.
  apply Exists_exists in Hex as (item & Hin & [image Himg]).
  rewrite Forall_forall in Hall. by rewrite (Hall item Hin) in Himg.
Qed.






Lemma conditional_log images categories attribute_name labels valid_categories
    prompt_template lg :
  length categories = length images →
  ∃ extra : list call,
    (extract_conditional_attribute images categories attribute_name labels
       valid_categories prompt_template lg).2 = lg ++ extra
    ∧ length extra ≤ 1
    ∧ Forall (λ c : call, c.1 ≠ [] ∧ c.1 ⊆ images) extra.
Proof.
  intros Hlen.
  destruct (conditional_run images categories attribute_name labels
              valid_categories prompt_template lg Hlen)
    as (sls & valid_images & lcs & Hsel & _ & _ & _ & _ & _ & _ & Hrun).
  rewrite Hrun. cbn [snd].
  destruct (valid_indices_of categories valid_categories) as [|j vi] eqn:Hvi.
  - exists []. split_and!; [by rewrite app_nil_r|cbn; lia|done].
  - eexists [_]. split_and!; [done|cbn; lia|].
    apply mapM_exc_inv in Hsel. constructor; [|done]. cbn. split.
    + apply Forall2_length in Hsel. by destruct valid_images.
    + intros x Hx. apply list_elem_of_lookup in Hx as [k Hk].
      destruct (Forall2_lookup_r _ _ _ _ _ Hsel Hk) as (i & _ & Hget).
      unfold list_getitem in Hget.
      destruct (images !! i) eqn:Hi; [|done]. injection Hget as ->.
      by eapply list_elem_of_lookup_2.
Qed.

Lemma extract_attributes_log images image_ids lg :
  ∃ extra : list call,
    (extract_attributes images image_ids lg).2
    = lg ++ [(images, (λ category, "a photo of a " +:+ category) <$> CATEGORY_LABELS);
             (images, (λ color, color +:+ " clothing") <$> COLOR_LABELS);
             (images, (λ pattern, pattern +:+ " pattern clothing") <$> PATTERN_LABELS)]
         ++ extra
    ∧ length extra ≤ 3
    ∧ Forall (λ c : call, c.1 ≠ [] ∧ c.1 ⊆ images) extra.
Proof.
  unfold extract_attributes.
  destruct (extract_category_batch_run images lg) as (cats & Hcat & Hcats & _).
  erewrite bind_run by exact Hcat. cbv beta.
  erewrite lift_run by apply categories_run. cbv beta.
  match goal with |- context [(extract_color_batch images ≫= _) ?l] =>
    destruct (extract_color_batch_run images l) as (cols & Hcol & _ & _)
  end.
  erewrite bind_run by exact Hcol. cbv beta.
  match goal with |- context [(extract_pattern_batch images ≫= _) ?l] =>
    destruct (extract_pattern_batch_run images l) as (pats & Hpat & _ & _)
  end.
  erewrite bind_run by exact Hpat. cbv beta.
  match goal with
  | |- context [(extract_conditional_attribute ?im ?c ?a ?lb ?v ?t ≫= ?k) ?l] =>
      destruct (conditional_log im c a lb v t l) as (e1 & H1 & Hl1 & Hf1);
        [by rewrite length_fmap|];
      destruct (extract_conditional_attribute im c a lb v t l) as [[?|r1] l1] eqn:Hr1;
        [destruct (conditional_gated images cats a lb v t l) as (? & ? & Hg & _);
           [done|congruence]|];
      erewrite (bind_run _ k) by exact Hr1; cbv beta
  end.
  match goal with
  | |- context [(extract_conditional_attribute ?im ?c ?a ?lb ?v ?t ≫= ?k) ?l] =>
      destruct (conditional_log im c a lb v t l) as (e2 & H2 & Hl2 & Hf2);
        [by rewrite length_fmap|];
      destruct (extract_conditional_attribute im c a lb v t l) as [[?|r2] l2] eqn:Hr2;
        [destruct (conditional_gated images cats a lb v t l) as (? & ? & Hg & _);
           [done|congruence]|];
      erewrite (bind_run _ k) by exact Hr2; cbv beta
  end.
  match goal with
  | |- context [(extract_conditional_attribute ?im ?c ?a ?lb ?v ?t ≫= ?k) ?l] =>
      destruct (conditional_log im c a lb v t l) as (e3 & H3 & Hl3 & Hf3);
        [by rewrite length_fmap|];
      destruct (extract_conditional_attribute im c a lb v t l) as [[?|r3] l3] eqn:Hr3;
        [destruct (conditional_gated images cats a lb v t l) as (? & ? & Hg & _);
           [done|congruence]|];
      erewrite (bind_run _ k) by exact Hr3; cbv beta
  end.
  cbn [snd] in H1, H2, H3. subst l1 l2 l3.
  exists (e1 ++ e2 ++ e3). unfold lift. cbn [snd]. split_and!.
  - by rewrite <-!app_assoc.
  - rewrite !length_app. lia.
  - by rewrite !Forall_app.
Qed.

Lemma handler_log items t0 t1 lg :
  Forall (λ item, is_dict item = true) items →
  decoded_images items ≠ [] →
  (handler (batch_event items) t0 t1 lg).2
  = (extract_attributes (decoded_images items) (decoded_ids 0 items) lg).2.
Proof.
  intros Hd Hne.
  unfold handler, try_except, handler_body.
  rewrite (lift_run _ _ _ (PDict (<["images" := PList items]> ∅))) by reflexivity.
  rewrite (lift_run _ _ _ (PList items)) by reflexivity.
  assert (truthy (PList items) = true) as ->
    by (destruct items; [by destruct Hne|done]).
  cbn [negb].
  rewrite (lift_run _ _ _ (length items)) by reflexivity.
  rewrite (lift_run _ _ _ items) by reflexivity.
  unfold enumerate.
  erewrite lift_run by apply (decode_loop_run items Hd). cbn [app].
  destruct (decoded_images items) as [|image images] eqn:Himgs; [done|].
  destruct (extract_attributes_run (image :: images) (decoded_ids 0 items) lg)
    as (sets & lg' & Hrun & _).
  { by rewrite length_decoded_ids, Himgs. }
  erewrite bind_run by exact Hrun. cbv beta zeta. rewrite Hrun.
  unfold py_div. by destruct (Qeq_bool (t1 - t0) 0).
Qed.


(** ** Further properties of the classifier *)


Lemma argmax_from_spec (row : list Q) :
  ∀ (pre : list Q) best_idx best,
    pre !! best_idx = Some best →
    (∀ j x, pre !! j = Some x → (x <= best)%Q) →
    (∀ j x, j < best_idx → pre !! j = Some x → (x < best)%Q) →
    ∃ v, (pre ++ row) !! argmax_from best_idx best (length pre) row = Some v
         ∧ (∀ j x, (pre ++ row) !! j = Some x → (x <= v)%Q)
         ∧ (∀ j x, j < argmax_from best_idx best (length pre) row →
                   (pre ++ row) !! j = Some x → (x < v)%Q).
Proof.
  induction row as [|x row IH]; intros pre best_idx best Hb Hmax Hfirst.
  - cbn. rewrite app_nil_r. by exists best.
  - cbn [argmax_from].
    assert (best_idx < length pre) as Hlt by by eapply lookup_lt_Some.
    replace (pre ++ x :: row) with ((pre ++ [x]) ++ row)
      by by rewrite <-app_assoc.
    replace (S (length pre)) with (length (pre ++ [x]))
      by (rewrite length_app; cbn; lia).
    destruct (Qle_bool x best) eqn:Hx.
    + apply Qle_bool_iff in Hx. apply IH.
      * by rewrite lookup_app_l.
      * intros j y Hj. apply lookup_app_Some in Hj as [Hj|[_ Hj]]; [by eapply Hmax|].
        apply list_lookup_singleton_Some in Hj as [_ <-]. done.
      * intros j y Hj Hy. rewrite lookup_app_l in Hy by lia. by eapply Hfirst.
    + assert (best < x)%Q as Hbx.
      { apply Qnot_le_lt. intros Hle%Qle_bool_iff. congruence. }
      apply IH.
      * rewrite lookup_app_r by lia. by rewrite Nat.sub_diag.
      * intros j y Hj. apply lookup_app_Some in Hj as [Hj|[_ Hj]].
        -- apply Qlt_le_weak. eapply Qle_lt_trans; [|exact Hbx]. by eapply Hmax.
        -- apply list_lookup_singleton_Some in Hj as [_ <-]. apply Qle_refl.
      * intros j y Hj Hy. rewrite lookup_app_l in Hy by done.
        eapply Qle_lt_trans; [|exact Hbx]. by eapply Hmax.
Qed.

(** [argmax] returns the first index at which the row is maximal. *)
Lemma argmax_spec (row : list Q) top_idx :
  argmax row = inr top_idx →
  ∃ v, row !! top_idx = Some v
       ∧ (∀ j x, row !! j = Some x → (x <= v)%Q)
       ∧ (∀ j x, j < top_idx → row !! j = Some x → (x < v)%Q).
Proof.
  destruct row as [|x row]; [done|]. cbn. intros [= <-].
  apply (argmax_from_spec row [x] 0 x); [done| |].
  - intros j y Hj. apply list_lookup_singleton_Some in Hj as [_ <-]. apply Qle_refl.
  - intros j y Hj. lia.
Qed.

Lemma classify_row_spec text_prompts probs i d :
  classify_row text_prompts probs i = inr d →
  ∃ row top_idx prompt label confidence,
    probs !! i = Some row ∧ argmax row = inr top_idx
    ∧ text_prompts !! top_idx = Some prompt
    ∧ last (split prompt) = Some label
    ∧ row !! top_idx = Some confidence
    ∧ d = <["confidence" := PFloat confidence]> (<["label" := PStr label]> ∅).
Proof.
  unfold classify_row, list_getitem, list_last.
  destruct (probs !! i) as [row|] eqn:Hrow; [|done]. cbn [mbind exc_bind mret exc_ret].
  destruct (argmax row) as [|top_idx] eqn:Htop; [done|]. cbn [mbind exc_bind].
  destruct (row !! top_idx) as [confidence|] eqn:Hc; [|done]. cbn [mbind exc_bind mret exc_ret].
  destruct (text_prompts !! top_idx) as [prompt|] eqn:Hp; [|done]. cbn [mbind exc_bind mret exc_ret].
  destruct (last (split prompt)) as [label|] eqn:Hl; [|done]. cbn [mbind exc_bind mret exc_ret].
  intros [= <-]. by exists row, top_idx, prompt, label, confidence.
Qed.

Lemma classify_row_total text_prompts probs i row :
  probs !! i = Some row → row ≠ [] → length row ≤ length text_prompts →
  Forall (λ prompt, split prompt ≠ []) text_prompts →
  ∃ d, classify_row text_prompts probs i = inr d.
Proof.
  intros Hrow Hne Hlen Hwords.
  unfold classify_row, list_getitem, list_last. rewrite Hrow. cbn.
  destruct (argmax row) as [|top_idx] eqn:Htop; [by destruct row|]. cbn.
  destruct (argmax_spec row top_idx Htop) as (v & Hv & _). rewrite Hv. cbn.
  destruct (lookup_lt_is_Some_2 text_prompts top_idx) as [prompt Hp].
  { apply lookup_lt_Some in Hv. lia. }
  rewrite Hp. cbn.
  rewrite Forall_forall in Hwords.
  pose proof (Hwords prompt (list_elem_of_lookup_2 _ _ _ Hp)) as Hw.
  destruct (last (split prompt)) as [label|] eqn:Hl; [by eexists|].
  by apply last_None in Hl.
Qed.

Lemma mapM_exc_total {A B : Type} (f : A → Exc B) (l : list A) :
  (∀ x, x ∈ l → ∃ y, f x = inr y) → ∃ k, mapM f l = inr k.
Proof.
  induction l as [|x l IH]; intros Hf; [by exists []|].
  destruct (Hf x) as [y Hy]; [by left|].
  destruct IH as [k Hk]; [intros z Hz; apply Hf; by right|].
  exists (y :: k). cbn. by rewrite Hy, Hk.
Qed.


Lemma result_dict_inj key (a b : string * Q) :
  key ≠ "confidence" → result_dict key a = result_dict key b → a = b.
Proof.
  intros Hk Heq.
  assert (result_dict key a !! key = result_dict key b !! key) as H1
    by by rewrite Heq.
  assert (result_dict key a !! "confidence" = result_dict key b !! "confidence")
    as H2 by by rewrite Heq.
  unfold result_dict in H1, H2.
  do 2 rewrite (lookup_insert_ne _ "confidence" key) in H1 by done.
  rewrite !lookup_insert_eq in H1. rewrite !lookup_insert_eq in H2.
  clear Heq. destruct a, b. cbn [fst snd] in *.
  injection H1 as ->. by injection H2 as ->.
Qed.

Lemma dicts_inj key (l1 l2 : list (string * Q)) :
  key ≠ "confidence" → dicts key l1 = dicts key l2 → l1 = l2.
Proof.
  intros Hk. unfold dicts. revert l2.
  induction l1 as [|a l1 IH]; intros [|b l2]; try done.
  rewrite !fmap_cons. intros Heq.
  pose proof (f_equal (λ l, default (result_dict key a) (head l)) Heq) as Hab.
  pose proof (f_equal tail Heq) as Hl. cbn in Hab, Hl.
  f_equal; [exact (result_dict_inj key a b Hk Hab)|exact (IH l2 Hl)].
Qed.

Lemma pattern_prompts_last_word :
  Forall (λ prompt, list_last (split prompt) = inr "clothing")
         ((λ pattern, pattern +:+ " pattern clothing") <$> PATTERN_LABELS).
Proof. repeat constructor. Qed.


(** The labels a conditional extraction stores are last words of its
    prompts, or the placeholder. *)
Lemma conditional_labels (P : string → Prop) images categories attribute_name
    labels valid_categories prompt_template lg :
  length categories = length images →
  attribute_name ≠ "confidence" →
  (∀ prompt w, prompt ∈ format_label prompt_template <$> labels →
               list_last (split prompt) = inr w → P w) →
  P "unknown" →
  ∃ (full : list (option (gmap string pyval))) lg',
    extract_conditional_attribute images categories attribute_name labels
      valid_categories prompt_template lg = (inr full, lg')
    ∧ length full = length images
    ∧ Forall (λ o : option (gmap string pyval),
                ∀ r, o = Some r → ∃ w, r !! attribute_name = Some (PStr w) ∧ P w)
             full.
Proof.
  intros Hlen Hattr Hlast Hunknown.
  destruct (conditional_run images categories attribute_name labels
              valid_categories prompt_template lg Hlen)
    as (sls & valid_images & lcs & _ & Hcls & Hlcs & _ & Hsl & Hout & Hin & Hrun).
  destruct (batch_classify_labels P valid_images
              (format_label prompt_template <$> labels) lg Hlast Hunknown)
    as (lcs' & Hcls' & HP).
  rewrite Hcls in Hcls'. injection Hcls' as <-%dicts_inj; [|done].
  eexists _, _. split; [exact Hrun|]. split.
  { unfold option_dicts. by rewrite length_fmap. }
  unfold option_dicts. apply Forall_fmap, Forall_lookup.
  intros i o Ho r Hr. destruct o as [lc|]; [|done]. injection Hr as <-.
  exists lc.1. split; [unfold result_dict; by simplify_map_eq|].
  destruct (decide (i ∈ valid_indices_of categories valid_categories)) as [Hi|Hi].
  - apply list_elem_of_lookup in Hi as [k Hk].
    rewrite (Hin k i Hk) in Ho. injection Ho as Ho.
    rewrite Forall_forall in HP. apply HP. by eapply list_elem_of_lookup_2.
  - rewrite Hout in Ho; [done|done|]. apply lookup_lt_Some in Ho. lia.
Qed.

Lemma conditional_prompts_last_word :
  Forall (λ prompt, list_last (split prompt) = inr "clothing")
         (format_label "{label} sleeve clothing" <$> SLEEVE_LENGTH_LABELS)
  ∧ Forall (λ prompt, list_last (split prompt) = inr "neckline")
           (format_label "{label} neckline" <$> NECKLINE_LABELS)
  ∧ Forall (λ prompt, list_last (split prompt) = inr "dress")
           (format_label "{label} length dress" <$> LENGTH_LABELS).
Proof. split_and!; repeat constructor. Qed.


(** ** Further properties of the single-image analyser *)

Lemma top_prompt_log image text_prompts lg tc lg' :
  top_prompt image text_prompts lg = (inr tc, lg') →
  lg' = lg ++ [([image], text_prompts)].
Proof.
  unfold top_prompt. intros (u & lg1 & Hrec & H)%bind_inv.
  unfold record_call in Hrec. injection Hrec as _ <-.
  unfold lift in H. by injection H as _ <-.
Qed.

Lemma labelled_log image text_prompts key labels lg d lg' :
  (top_prompt image text_prompts ≫= labelled key labels) lg = (inr d, lg') →
  ∃ lc, d = result_dict key lc ∧ lc.1 ∈ labels
        ∧ lg' = lg ++ [([image], text_prompts)].
Proof.
  intros H.
  destruct (labelled_inv _ _ _ _ _ _ _ H) as (lc & -> & Hin).
  exists lc. split_and!; [done..|].
  apply bind_inv in H as (tc & lg1 & Htop & H).
  apply top_prompt_log in Htop as ->. unfold labelled in H.
  apply lift_inv in H as (label & _ & H). by injection H as _ <-.
Qed.

Lemma conditional_method_log image text_prompts key labels valid category
    lg (o : option (gmap string pyval)) lg' :
  (if negb (py_in category valid) then mret None
   else tc ← top_prompt image text_prompts;
        r ← labelled key labels tc;
        mret (Some r)) lg = (inr o, lg') →
  ∃ slc : option (string * Q),
    o = result_dict key <$> slc
    ∧ (is_Some slc ↔ py_in category valid = true)
    ∧ (∀ lc, slc = Some lc → lc.1 ∈ labels)
    ∧ lg' = lg ++ match slc with
                  | Some _ => [([image], text_prompts)]
                  | None => []
                  end.
Proof.
  destruct (py_in category valid); cbn [negb].
  - intros (tc & lg1 & Htop & H)%bind_inv.
    apply bind_inv in H as (r & lg2 & Hr & H). injection H as <- <-.
    destruct (labelled_log image text_prompts key labels lg r lg2)
      as (lc & -> & Hin & ->).
    { by erewrite bind_run by exact Htop. }
    exists (Some lc). split_and!; [done|by split; eauto| |done].
    by intros ? [= <-].
  - intros [= <- <-]. exists None. split_and!; [done| |done|by rewrite app_nil_r].
    split; [by intros [? ?]|done].
Qed.

(** What a returned analysis is made of, and the calls behind it. *)
Lemma analyze_full_inv image_data mime_type lg r lg' :
  analyze image_data mime_type lg = (inr r, lg') →
  ∃ image (cat col gen pat : string * Q) (sl nk ln : option (string * Q))
    (results : gmap string pyval) (calls : list call),
    open_payload image_data = inr image
    ∧ r = PDict results
    ∧ (cat.1 ∈ CATEGORY_LABELS ∧ col.1 ∈ COLOR_LABELS
       ∧ gen.1 ∈ GENDER_LABELS ∧ pat.1 ∈ PATTERN_LABELS)
    ∧ ((∀ lc, sl = Some lc → lc.1 ∈ SLEEVE_LENGTH_LABELS)
       ∧ (∀ lc, nk = Some lc → lc.1 ∈ NECKLINE_LABELS)
       ∧ (∀ lc, ln = Some lc → lc.1 ∈ LENGTH_LABELS))
    ∧ (results !! "category" = Some (PStr cat.1)
       ∧ results !! "color" = Some (PStr col.1)
       ∧ results !! "gender" = Some (PStr gen.1)
       ∧ results !! "pattern" = Some (PStr pat.1))
    ∧ (results !! "sleeveLength" = (λ lc, PStr lc.1) <$> sl
       ∧ results !! "neckline" = (λ lc, PStr lc.1) <$> nk
       ∧ results !! "length" = (λ lc, PStr lc.1) <$> ln)
    ∧ lg' = lg ++ calls
    ∧ Forall (λ c : call, c.1 = [image]) calls
    ∧ length calls
      = 4 + length (option_list sl) + length (option_list nk)
        + length (option_list ln).
Proof.
  unfold analyze.
  intros (image & Himage & H)%lift_inv.
  apply bind_inv in H as (category_result & lg1 & Hcat & H).
  apply labelled_log in Hcat as (cat & -> & Hcat & ->).
  apply lift_inv in H as (category & Hc & H).
  rewrite dict_getitem_label in Hc by done. injection Hc as <-.
  apply bind_inv in H as (color_result & lg2 & Hcol & H).
  apply labelled_log in Hcol as (col & -> & Hcol & ->).
  apply bind_inv in H as (gender_result & lg3 & Hgen & H).
  apply labelled_log in Hgen as (gen & -> & Hgen & ->).
  apply bind_inv in H as (pattern_result & lg4 & Hpat & H).
  apply labelled_log in Hpat as (pat & -> & Hpat & ->).
  apply bind_inv in H as (sleeve_result & lg5 & Hsl & H).
  apply conditional_method_log in Hsl as (sl & -> & _ & Hsl & ->).
  apply bind_inv in H as (neckline_result & lg6 & Hnk & H).
  apply conditional_method_log in Hnk as (nk & -> & _ & Hnk & ->).
  apply bind_inv in H as (length_result & lg7 & Hln & H).
  apply conditional_method_log in Hln as (ln & -> & _ & Hln & ->).
  rewrite !dict_getitem_label in H by done.
  rewrite !dict_getitem_confidence in H.
  do 7 (apply lift_inv in H as (? & [= <-] & H)).
  match type of H with context [<["confidence" := PDict ?m]> _] =>
    set (cd0 := m) in * end.
  match type of H with context [set_conditional _ _ ?m] =>
    set (results0 := m) in H end.
  destruct (set_conditional_spec "sleeveLength" sl results0 cd0)
    as (results1 & cd1 & Hrun1 & Hc1 & Hr1 & Hd1 & Hro1 & Hco1); [done|done|].
  erewrite lift_run in H by exact Hrun1. cbv beta in H.
  destruct (set_conditional_spec "neckline" nk results1 cd1)
    as (results2 & cd2 & Hrun2 & Hc2 & Hr2 & Hd2 & Hro2 & Hco2); [done|done|].
  erewrite lift_run in H by exact Hrun2. cbv beta in H.
  destruct (set_conditional_spec "length" ln results2 cd2)
    as (results3 & cd3 & Hrun3 & Hc3 & Hr3 & Hd3 & Hro3 & Hco3); [done|done|].
  erewrite lift_run in H by exact Hrun3. cbv beta in H.
  injection H as <- <-.
  eexists image, cat, col, gen, pat, sl, nk, ln, results3, _.
  assert (∀ k, k ≠ "sleeveLength" → k ≠ "neckline" → k ≠ "length" →
               k ≠ "confidence" → results3 !! k = results0 !! k) as Hkeep.
  { intros k ? ? ? ?. by rewrite Hro3, Hro2, Hro1. }
  split.
  { unfold preprocess_image in Himage.
    destruct (open_payload image_data); [done|]. by injection Himage as ->. }
  split; [done|]. split; [done|]. split; [done|].
  split; [by rewrite !Hkeep|].
  split.
  { rewrite Hr3, (Hro3 "neckline"), Hr2 by done.
    rewrite (Hro3 "sleeveLength"), (Hro2 "sleeveLength"), Hr1 by done.
    rewrite (Hro2 "length"), (Hro1 "length") by done.
    rewrite (Hro1 "neckline") by done.
    destruct sl, nk, ln; split_and!; reflexivity. }
  split; [by rewrite <-!app_assoc|].
  split.
  { destruct sl, nk, ln; repeat constructor. }
  destruct sl, nk, ln; reflexivity.
Qed.





(** ** When the analyser returns *)

Lemma top_prompt_run image text_prompts lg probs row :
  clip_probs [image] text_prompts = inr probs →
  probs !! 0 = Some row → row ≠ [] →
  ∃ tc, top_prompt image text_prompts lg
        = (inr tc, lg ++ [([image], text_prompts)])
        ∧ tc.1 < length row.
Proof.
  intros Hprobs Hrow Hne.
  destruct (argmax row) as [e|top_idx] eqn:Htop; [by destruct row|].
  destruct (argmax_spec row top_idx Htop) as (v & Hv & _).
  exists (top_idx, v). split; [|by eapply lookup_lt_Some].
  unfold top_prompt, record_call, lift, mbind, m_bind, exc_bind, list_getitem,
    mret, exc_ret.
  rewrite Hprobs, Hrow. cbv beta iota. rewrite Htop. cbv beta iota.
  by rewrite Hv.
Qed.

Lemma labelled_run key labels (tc : nat * Q) lg :
  tc.1 < length labels →
  ∃ label, labelled key labels tc lg = (inr (result_dict key (label, tc.2)), lg).
Proof.
  intros [label Hlabel]%lookup_lt_is_Some_2. exists label.
  unfold labelled, lift, mbind, m_bind, list_getitem. by rewrite Hlabel.
Qed.

(** The model answers for [image]: for every non-empty list of prompts it
    returns at least one row, and the first row has a score for some of the
    prompts and for nothing else. *)
Lemma method_run image text_prompts key labels lg :
  (∀ text_prompts, text_prompts ≠ [] →
     ∃ probs row, clip_probs [image] text_prompts = inr probs
                  ∧ probs !! 0 = Some row
                  ∧ row ≠ [] ∧ length row ≤ length text_prompts) →
  text_prompts ≠ [] → length text_prompts = length labels →
  ∃ lc, (top_prompt image text_prompts ≫= labelled key labels) lg
        = (inr (result_dict key lc), lg ++ [([image], text_prompts)]).
Proof.
  intros Hmodel Hne Hlen.
  destruct (Hmodel text_prompts Hne) as (probs & row & Hprobs & Hrow & Hr & Hl).
  destruct (top_prompt_run image text_prompts lg probs row Hprobs Hrow Hr)
    as (tc & Htop & Htc).
  destruct (labelled_run key labels tc (lg ++ [([image], text_prompts)]))
    as (label & Hlabel); [lia|].
  exists (label, tc.2). by erewrite bind_run by exact Htop.
Qed.

Lemma conditional_method_run image text_prompts key labels valid category lg :
  (∀ text_prompts, text_prompts ≠ [] →
     ∃ probs row, clip_probs [image] text_prompts = inr probs
                  ∧ probs !! 0 = Some row
                  ∧ row ≠ [] ∧ length row ≤ length text_prompts) →
  text_prompts ≠ [] → length text_prompts = length labels →
  ∃ (slc : option (string * Q)) lg',
    (if negb (py_in category valid) then mret None
     else tc ← top_prompt image text_prompts;
          r ← labelled key labels tc;
          mret (Some r)) lg
    = (inr (result_dict key <$> slc), lg').
Proof.
  intros Hmodel Hne Hlen. destruct (py_in category valid); cbn [negb].
  - destruct (Hmodel text_prompts Hne) as (probs & row & Hprobs & Hrow & Hr & Hl).
    destruct (top_prompt_run image text_prompts lg probs row Hprobs Hrow Hr)
      as (tc & Htop & Htc).
    destruct (labelled_run key labels tc (lg ++ [([image], text_prompts)]))
      as (label & Hlabel); [lia|].
    exists (Some (label, tc.2)). eexists.
    erewrite bind_run by exact Htop. cbv beta.
    by erewrite bind_run by exact Hlabel.
  - by exists None, lg.
Qed.


(** ** The web endpoint of the analyser *)

Lemma try_except_run {A : Type} (body : M A) (handle : exn → M A) lg :
  try_except body handle lg
  = match body lg with
    | (inl e, lg') => handle e lg'
    | (inr x, lg') => (inr x, lg')
    end.
Proof. reflexivity. Qed.




End World.

(** ** The embedding service *)

Section ClipServiceFacts.

Context (encode_image_remote : pyval → Exc (list pyval)).
Context (encode_text_remote : pyval → Exc (list pyval)).
Context (encode_image_batch_remote : pyval → Exc (list pyval)).

Lemma py_eq_str_false (d : gmap string pyval) (s : string) :
  d !! "type" ≠ Some (PStr s) →
  py_eq_str (default PNone (d !! "type")) s = false.
Proof.
  intros H. destruct (d !! "type") as [[]|]; try done.
  cbn. apply bool_decide_eq_false. congruence.
Qed.

(** *** Slicing a list into chunks *)

Lemma range_step_chunks {A : Type} (size : nat) (l : list A) (m : nat) :
  concat ((λ i, take size (drop i l)) <$> ((λ k, k * size) <$> seq 0 m))
  = take (m * size) l.
Proof.
  induction m as [|m IH]; [done|].
  rewrite seq_S, !fmap_app, concat_app, IH. cbn.
  rewrite app_nil_r, take_take_drop. f_equal. lia.
Qed.

Lemma chunks_count (n size : nat) :
  0 < size →
  n ≤ (n + size - 1) / size * size
  ∧ ∀ k, k < (n + size - 1) / size → k * size < n.
Proof.
  intros Hs.
  pose proof (Nat.div_mod_eq (n + size - 1) size) as Hd.
  pose proof (Nat.mod_upper_bound (n + size - 1) size) as Hm.
  split; [nia|]. intros k Hk. nia.
Qed.

Lemma concat_chunks_of {A : Type} (size : nat) (l : list A) :
  0 < size → concat (chunks_of size l) = l.
Proof.
  intros Hs. unfold chunks_of, range_step.
  rewrite range_step_chunks. apply take_ge.
  by apply chunks_count.
Qed.

Lemma length_chunks_of {A : Type} (size : nat) (l : list A) :
  length (chunks_of size l) = (length l + size - 1) / size.
Proof. unfold chunks_of, range_step. by rewrite !length_fmap, length_seq. Qed.

Lemma chunks_of_lookup {A : Type} (size : nat) (l : list A) k chunk :
  0 < size →
  chunks_of size l !! k = Some chunk →
  chunk = take size (drop (k * size) l) ∧ k * size < length l.
Proof.
  intros Hs. unfold chunks_of, range_step.
  rewrite !list_lookup_fmap. intros H.
  destruct (seq 0 ((length l + size - 1) / size) !! k) as [j|] eqn:Hj; [|done].
  apply lookup_seq in Hj as [-> Hk]. injection H as <-.
  split; [done|]. by apply chunks_count.
Qed.

Lemma fmap_concat {A B : Type} (g : A → B) (ls : list (list A)) :
  g <$> concat ls = concat (fmap (M := list) g <$> ls).
Proof.
  induction ls as [|l ls IH]; [done|]. cbn. by rewrite fmap_app, IH.
Qed.

(** *** The loop over the chunks *)

Lemma encode_chunk_run images batch_size all_embeddings i lg :
  encode_chunk encode_image_batch_remote (PList images) batch_size
    all_embeddings i lg
  = let chunk := take batch_size (drop i images) in
    match encode_image_batch_remote (PList chunk) with
    | inr embeddings => (inr (all_embeddings ++ embeddings), lg ++ [batch_call chunk])
    | inl e => (inl e, lg ++ [batch_call chunk])
    end.
Proof.
  unfold encode_chunk, remote, logged_lift, mbind, logged_bind, py_slice. cbn.
  rewrite Nat.add_sub'.
  by destruct (encode_image_batch_remote _).
Qed.

Lemma encode_loop_run images batch_size (f : list pyval → list pyval) indices :
  ∀ all_embeddings lg,
    Forall (λ i, let chunk := take batch_size (drop i images) in
                 encode_image_batch_remote (PList chunk) = inr (f chunk)) indices →
    for_each (encode_chunk encode_image_batch_remote (PList images) batch_size)
      all_embeddings indices lg
    = (inr (all_embeddings
            ++ concat (f <$> ((λ i, take batch_size (drop i images)) <$> indices))),
       lg ++ (batch_call <$> ((λ i, take batch_size (drop i images)) <$> indices))).
Proof.
  induction indices as [|i indices IH]; intros all_embeddings lg Hok.
  - cbn. by rewrite !app_nil_r.
  - apply Forall_cons in Hok as [Hi Hok]. cbn zeta in Hi.
    cbn [for_each]. unfold mbind at 1, logged_bind at 1.
    rewrite encode_chunk_run. cbn zeta. rewrite Hi.
    rewrite IH by done. cbn. by rewrite <-!app_assoc.
Qed.

Lemma encode_loop_raise images batch_size (f : list pyval → list pyval)
    indices i rest e :
  ∀ all_embeddings lg,
    Forall (λ i, let chunk := take batch_size (drop i images) in
                 encode_image_batch_remote (PList chunk) = inr (f chunk)) indices →
    encode_image_batch_remote (PList (take batch_size (drop i images))) = inl e →
    for_each (encode_chunk encode_image_batch_remote (PList images) batch_size)
      all_embeddings (indices ++ i :: rest) lg
    = (inl e,
       lg ++ (batch_call <$> ((λ i, take batch_size (drop i images))
                              <$> indices ++ [i]))).
Proof.
  induction indices as [|j indices IH]; intros all_embeddings lg Hok He.
  - cbn [app for_each]. unfold mbind at 1, logged_bind at 1.
    rewrite encode_chunk_run. cbn zeta. by rewrite He.
  - apply Forall_cons in Hok as [Hj Hok]. cbn zeta in Hj.
    rewrite <-app_comm_cons. cbn [for_each]. unfold mbind at 1, logged_bind at 1.
    rewrite encode_chunk_run. cbn zeta. rewrite Hj.
    rewrite IH by done. cbn. by rewrite <-!app_assoc.
Qed.

(** What [encode_batch_endpoint] does with a list of images. *)
Lemma encode_batch_endpoint_list (d : gmap string pyval) images lg :
  d !! "images" = Some (PList images) →
  encode_batch_endpoint encode_image_batch_remote (PDict d) lg
  = match for_each (encode_chunk encode_image_batch_remote (PList images) 32) []
            (range_step (length images) 32) lg with
    | (inr all_embeddings, lg') =>
        (inr (PDict (<["count" := PInt (Z.of_nat (length all_embeddings))]>
                    (<["embeddings" := PList all_embeddings]>
                    (<["success" := PBool true]> ∅)))), lg')
    | (inl e, lg') => (inl e, lg')
    end.
Proof.
  intros Hd. unfold encode_batch_endpoint, logged_lift, mbind at 1 2 3, logged_bind.
  unfold py_get. rewrite Hd. cbn [default py_len mret exc_ret].
  reflexivity.
Qed.






(** *** The single-embedding endpoint *)



End ClipServiceFacts.



(** ** The program on concrete requests *)

Example split_ex : split "  a photo of a dress " = ["a"; "photo"; "of"; "a"; "dress"].
Proof. reflexivity. Qed.

Example format_ex :
  format_label "{label} sleeve clothing" "long" = "long sleeve clothing".
Proof. reflexivity. Qed.

Example argmax_ex : argmax [1#4; 1#2; 1#2; 0%Q] = inr 1.
Proof. reflexivity. Qed.

Lemma three_items_dicts : Forall (λ item, is_dict item = true) three_items.
Proof. repeat constructor. Qed.

Lemma three_items_decode :
  Exists (λ item, is_Some (item_image toy_open item)) three_items.
Proof. apply Exists_cons_hd. by eexists. Qed.

(** C1 at a concrete batch: three entries, with the ids [image_0], [b]
    and [c]. *)
Lemma results_aligned_witness :
  ∃ results stats lg',
    handler toy_open (toy_probs 3) (batch_event three_items) 0 1 []
    = (inr (ok_response results stats), lg')
    ∧ length results = 3
    ∧ ∀ i item, three_items !! i = Some item →
        ∃ e, results !! i = Some (PDict e) ∧ e !! "id" = Some (item_id i item).
Proof.
  apply (results_aligned toy_open (toy_probs 3) three_items 0 1 []).
  - exact three_items_dicts.
  - exact three_items_decode.
  - reflexivity.
Defined.

(** C1 as stated fails: a batch of one item that does not decode gets a
    response with no result entry. *)
Lemma all_failed_batch_has_no_entries :
  length one_bad_item = 1
  ∧ ∃ response,
      (handler toy_open (toy_probs 3) (batch_event one_bad_item) 0 1 []).1
      = inr response
      ∧ response_field response "results" = Some (PList []).
Proof.
  split; [reflexivity|].
  exists (error_response "All images failed to decode"). split; reflexivity.
Qed.

(** C3 at a concrete batch. *)
Lemma all_failed_is_batch_error_witness :
  handler toy_open (toy_probs 3) (batch_event one_bad_item) 0 1 []
  = (inr (error_response "All images failed to decode"), []).
Proof.
  apply (all_failed_is_batch_error toy_open (toy_probs 3) one_bad_item 0 1 []).
  - discriminate.
  - repeat constructor.
  - repeat constructor.
Defined.

(** C3 as stated fails: the response to a batch whose only item does not
    decode has no stats. *)
Lemma all_failed_batch_has_no_stats :
  ∃ response,
    (handler toy_open (toy_probs 3) (batch_event one_bad_item) 0 1 []).1
    = inr response
    ∧ response_field response "stats" = None
    ∧ response_field response "error" = Some (PStr "All images failed to decode").
Proof.
  exists (error_response "All images failed to decode"). split_and!; reflexivity.
Qed.

(** C2 at a concrete request.  The model gives all its weight to the
    prompt [red clothing] (index 3 of the color prompts): the batch extractor
    reports the color [clothing], which is no color of the vocabulary, where
    the single-image extractor reports [red]. *)
Theorem batch_color_label_is_last_word :
  (extract_color_batch (toy_probs 3) [0] []).1
  = inr [<["confidence" := PFloat 1]> (<["color" := PStr "clothing"]> ∅)]
  ∧ ("clothing" ∉ COLOR_LABELS)
  ∧ (extract_color (toy_probs 3) 0 []).1
    = inr (<["confidence" := PFloat 1]> (<["color" := PStr "red"]> ∅)).
Proof.
  split_and!; [reflexivity| |reflexivity]. by apply (bool_decide_unpack _).
Qed.

(** The batch of one decodable item, with a model that gives all its
    weight to prompt 3 of every vocabulary ([blouse] for the category), is
    answered with [blouse_entry]. *)
Example blouse_batch :
  ∃ stats lg',
    handler toy_open (toy_probs 3) (batch_event one_good_item) 0 1 []
    = (inr (ok_response [PDict blouse_entry] stats), lg')
    ∧ is_Some (blouse_entry !! "attributes" ≫= λ v, response_field v "sleeveLength")
    ∧ is_Some (blouse_entry !! "attributes" ≫= λ v, response_field v "neckline")
    ∧ blouse_entry !! "attributes" ≫= (λ v, response_field v "length") = None.
Proof. eexists _, _. split_and!; [reflexivity|by eexists|by eexists|reflexivity]. Qed.

(** C4 at that request, and at the same image given to the single-image
    analyser: the category pass labels the image [blouse], the entry of the
    item and the analysis carry that category, and their conditional keys
    are the ones [blouse] is valid for. *)
Lemma conditional_attributes_gated_witness :
  (∃ results stats lg' (e attributes confidence : gmap string pyval),
     handler toy_open (toy_probs 3) (batch_event one_good_item) 0 1 []
     = (inr (ok_response results stats), lg')
     ∧ results !! 0 = Some (PDict e)
     ∧ e !! "attributes" = Some (PDict attributes)
     ∧ e !! "confidence" = Some (PDict confidence)
     ∧ attributes !! "category" = Some (PStr "blouse")
     ∧ gating_holds attributes confidence "blouse")
  ∧ (∃ results confidence : gmap string pyval,
       (analyze toy_open (toy_probs 3) (PStr gif_payload) (PStr "image/jpeg") []).1
       = inr (PDict results)
       ∧ results !! "confidence" = Some (PDict confidence)
       ∧ results !! "category" = Some (PStr "blouse")
       ∧ gating_holds results confidence "blouse").
Proof.
  split.
  - destruct (proj1 (conditional_attributes_gated toy_open (toy_probs 3))
                one_good_item 0%Q 1%Q [] 0 (item gif_payload None) 0
                ltac:(repeat constructor) eq_refl eq_refl eq_refl)
      as (category_results & lg1 & category_result & category & results & stats
          & lg' & e & attributes & confidence & _ & Hcat & Hk & Hcr & Hrun & Hi
          & _ & Ha & Hc & Hcategory & Hg).
    assert (∃ lg2, extract_category_batch (toy_probs 3)
                     (decoded_images toy_open one_good_item) []
                   = (inr [result_dict "category" ("blouse", 1%Q)], lg2))
      as [lg2 Hblouse] by (eexists; reflexivity).
    rewrite Hblouse in Hcat. injection Hcat as <- _.
    injection Hk as <-. injection Hcr as <-.
    exists results, stats, lg', e, attributes, confidence.
    exact (conj Hrun (conj Hi (conj Ha (conj Hc (conj Hcategory Hg))))).
  - edestruct (proj2 (proj2 (conditional_attributes_gated toy_open (toy_probs 3)))
                 (PStr gif_payload) (PStr "image/jpeg") [])
      as (image & category_result & lg1 & results & confidence & category
          & Himage & Hcat & Hcr & Hr & Hc & Hcategory & Hg).
    { reflexivity. }
    injection Himage as <-.
    assert (∃ lg2, extract_category (toy_probs 3) 0 []
                   = (inr (result_dict "category" ("blouse", 1%Q)), lg2))
      as [lg2 Hblouse] by (eexists; reflexivity).
    rewrite Hblouse in Hcat. injection Hcat as <- _. injection Hcr as <-.
    injection Hr as <-.
    eexists _, confidence.
    exact (conj eq_refl (conj Hc (conj Hcategory Hg))).
Defined.

(** C5 as stated fails: the entry of a decoded image whose category is
    [shoes] has no gender key, in the attributes or in the confidences. *)
Lemma batch_entry_has_no_gender :
  ∃ stats lg',
    handler toy_open (toy_probs 13) (batch_event one_good_item) 0 1 []
    = (inr (ok_response [PDict shoes_entry] stats), lg')
    ∧ shoes_entry !! "success" = Some (PBool true)
    ∧ ∃ attributes confidence : gmap string pyval,
        shoes_entry !! "attributes" = Some (PDict attributes)
        ∧ shoes_entry !! "confidence" = Some (PDict confidence)
        ∧ attributes !! "category" = Some (PStr "shoes")
        ∧ attributes !! "gender" = None
        ∧ confidence !! "gender" = None.
Proof.
  eexists _, _. split; [reflexivity|]. split; [reflexivity|].
  eexists _, _. split_and!; reflexivity.
Qed.

(** C5, as amended, at a concrete image: the analyser reports a gender and
    its confidence for an image whose category is [shoes]. *)
Lemma gender_only_in_single_image_path_witness :
  ∃ results confidence : gmap string pyval,
    (analyze toy_open (toy_probs 13) (PStr gif_payload) (PStr "image/jpeg") []).1
    = inr (PDict results)
    ∧ results !! "confidence" = Some (PDict confidence)
    ∧ results !! "category" = Some (PStr "shoes")
    ∧ is_Some (results !! "gender")
    ∧ is_Some (confidence !! "gender").
Proof.
  edestruct (proj1 (gender_only_in_single_image_path toy_open (toy_probs 13))
               (PStr gif_payload) (PStr "image/jpeg") [])
    as (results & confidence & Hr & Hc & (_ & _ & Hg & _) & (_ & _ & Hg' & _)).
  { reflexivity. }
  exists results, confidence. injection Hr as <-.
  split_and!; [reflexivity|exact Hc|reflexivity|exact Hg|exact Hg'].
Defined.

Lemma broken_probs_broken : broken broken_probs.
Proof. intros images text_prompts. by eexists. Qed.

(** C6 at a concrete batch: with a model that always fails, the third item
    of the batch still gets a success entry, filled with placeholders. *)
Lemma degradation_is_silent_witness :
  ∃ results stats lg',
    handler toy_open broken_probs (batch_event three_items) 0 1 []
    = (inr (ok_response results stats), lg')
    ∧ results !! 2 = Some (unknown_entry (PStr "c")).
Proof.
  destruct (proj2 (degradation_is_silent toy_open broken_probs)
              three_items 0%Q 1%Q [] 2 (item gif_payload (Some "c")) 0
              three_items_dicts eq_refl eq_refl eq_refl)
    as (results & stats & lg' & e & Hrun & Hr & _ & He).
  exists results, stats, lg'. split; [exact Hrun|].
  by rewrite Hr, (He broken_probs_broken).
Defined.

(** C7 as stated fails: on a payload that does not decode the single-image
    decoder raises, the batch decoder returns [None] with no cause, and a
    batch made of that payload alone is answered with a batch-level error. *)
Lemma decode_failure_raises_or_fails_the_batch :
  preprocess_image toy_open (PStr "abc") (PStr "image/jpeg")
  = inl (ValueError "Failed to preprocess image: Incorrect padding")
  ∧ decode_image toy_open (PStr "abc") = None
  ∧ handler toy_open (toy_probs 3) (batch_event one_bad_item) 0 1 []
    = (inr (error_response "All images failed to decode"), []).
Proof. split_and!; reflexivity. Qed.

(** C7, as amended, at a concrete batch: the second of three items does not
    decode and gets the failure marker at position 1. *)
Lemma decode_failure_is_per_item_witness :
  ∃ results stats lg',
    handler toy_open (toy_probs 3) (batch_event three_items) 0 1 []
    = (inr (ok_response results stats), lg')
    ∧ results !! 1 = Some (failed_entry (PStr "b")).
Proof.
  apply (proj2 (decode_failure_is_per_item toy_open (toy_probs 3))
           three_items 0%Q 1%Q [] 1 (item "abc" (Some "b"))).
  - exact three_items_dicts.
  - exact three_items_decode.
  - reflexivity.
  - reflexivity.
  - reflexivity.
Defined.

(** C8 at the request [{"input": {"images": []}}]. *)
Lemma empty_batch_short_circuits_witness :
  handler toy_open (toy_probs 3) (PDict empty_event) 0 1 []
  = (inr (error_response "No images provided"), []).
Proof.
  apply (empty_batch_short_circuits toy_open (toy_probs 3) empty_event 0 1 []).
  right. eexists. split; [reflexivity|]. right. reflexivity.
Defined.

(** C9 at three images with the categories [shoes], [dress] and [skirt]
    and the length extractor: one call, on the last two images, and nothing
    for the first. *)
Lemma conditional_extractor_scatters_witness :
  ∃ results full,
    extract_conditional_attribute (toy_probs 1) [10; 11; 12]
      [PStr "shoes"; PStr "dress"; PStr "skirt"] "length" LENGTH_LABELS
      LENGTH_CATEGORIES "{label} length dress" []
    = (inr full, [([11; 12], format_label "{label} length dress" <$> LENGTH_LABELS)])
    ∧ batch_classify (toy_probs 1) [11; 12]
        (format_label "{label} length dress" <$> LENGTH_LABELS) []
      = (inr results, [([11; 12], format_label "{label} length dress" <$> LENGTH_LABELS)])
    ∧ length full = 3
    ∧ full !! 0 = Some None.
Proof.
  destruct (conditional_extractor_scatters (toy_probs 1) [10; 11; 12]
              [PStr "shoes"; PStr "dress"; PStr "skirt"] "length" LENGTH_LABELS
              LENGTH_CATEGORIES "{label} length dress" [] eq_refl eq_refl)
    as (_ & _ & H).
  destruct H as (valid_images & results & full & Hlen & Hsel & Hcls & Hrun & Hfull & _ & Hnone).
  { apply Exists_cons_tl, Exists_cons_hd. reflexivity. }
  assert (valid_images = [11; 12]) as ->.
  { destruct valid_images as [|x [|y [|z valid_images]]]; try done.
    pose proof (Hsel 0 1 eq_refl) as H0. pose proof (Hsel 1 2 eq_refl) as H1.
    cbn in H0, H1. by simplify_eq. }
  exists results, full. split_and!; [exact Hrun|exact Hcls|exact Hfull|].
  apply Hnone; [cbn; lia|]. by apply (bool_decide_unpack _).
Defined.

(** C10 on two requests whose processing raises: an item that is not an
    object, and a clock that has not advanced. *)
Example handler_catches_malformed_item :
  handler toy_open (toy_probs 3) (batch_event [PInt 3]) 0 1 []
  = (inr (error_response "'int' object has no attribute 'get'"), []).
Proof. reflexivity. Qed.

Example handler_catches_zero_elapsed :
  (handler toy_open (toy_probs 3) (batch_event one_good_item) 1 1 []).1
  = inr (error_response "float division by zero").
Proof. reflexivity. Qed.

(** ** The further properties on concrete requests *)

Lemma three_items_some_decodes :
  Exists (λ item, is_Some (item_image toy_open item)) three_items.
Proof. apply Exists_cons_hd. by exists 0. Qed.























